(** * Wellness.AI chatbot front-end (src/app.py): a shallow embedding

    The program is one Streamlit script, executed from its first line to its
    last on every user interaction.  It reads its widgets, possibly calls
    three remote services (speech-to-text, chat completion, text-to-speech),
    and keeps the conversation in [st.session_state.chat_history].

    The embedding follows the script statement by statement:
    - Python [str] values are lists of Unicode code points;
    - the session state, the file system and the sequence of visible effects
      are threaded through a small state-and-exception monad;
    - the remote services, the process environment and the operating system
      are the fields of a [World] record, so that every theorem quantifies
      over what they answer. *)

From Stdlib Require Import ZArith NArith List Bool String Ascii QArith.
From stdpp Require Import base option list gmap fin_maps.

Close Scope Q_scope.
Open Scope Z_scope.

(** ** Python strings *)

Module PyStr.

(** A Python [str] is a sequence of code points. *)
Abbreviation pystr := (list N).

(** Code points of an ASCII literal (one code point per character). *)
Fixpoint lit (s : string) : pystr :=
  match s with
  | EmptyString => []
  | String a s' => N_of_ascii a :: lit s'
  end.

(** [str.isspace] on one code point: the table of CPython's
    [_PyUnicode_IsWhitespace], which [str.strip()] consults. *)
Definition isspace (c : N) : bool :=
  ((9 <=? c) && (c <=? 13) ||
   (28 <=? c) && (c <=? 32) ||
   (c =? 133) || (c =? 160) || (c =? 5760) ||
   (8192 <=? c) && (c <=? 8202) ||
   (c =? 8232) || (c =? 8233) || (c =? 8239) || (c =? 8287) ||
   (c =? 12288))%N.

Fixpoint lstrip (s : pystr) : pystr :=
  match s with
  | [] => []
  | c :: s' => if isspace c then lstrip s' else s
  end.

Definition rstrip (s : pystr) : pystr := rev (lstrip (rev s)).

(** [s.strip()] with no argument. *)
Definition strip (s : pystr) : pystr := rstrip (lstrip s).

(** Truth value of a string: [bool(s)]. *)
Definition truthy (s : pystr) : bool :=
  match s with [] => false | _ :: _ => true end.

(** [s.startswith(p)]. *)
Fixpoint startswith (s p : pystr) : bool :=
  match p, s with
  | [], _ => true
  | _ :: _, [] => false
  | a :: p', b :: s' => (a =? b)%N && startswith s' p'
  end.

(** [s.rfind(c)] for a single character [c]: the highest index, or -1. *)
Fixpoint rfind_from (c : N) (s : pystr) (i acc : Z) : Z :=
  match s with
  | [] => acc
  | x :: s' => rfind_from c s' (i + 1) (if (x =? c)%N then i else acc)
  end.

Definition rfind (s : pystr) (c : N) : Z := rfind_from c s 0 (-1).

(** [s[i:j]] for non-negative [i] and [j]. *)
Definition slice (s : pystr) (i j : Z) : pystr :=
  take (Z.to_nat (j - i)) (drop (Z.to_nat i) s).

(** [os.path.splitext] (posixpath): the extension starts at the last dot of
    the last path component, unless that component has only leading dots
    before it. *)
Definition splitext (p : pystr) : pystr * pystr :=
  let sepIndex := rfind p 47%N in
  let dotIndex := rfind p 46%N in
  if (sepIndex <? dotIndex) &&
     existsb (fun x => negb (x =? 46)%N) (slice p (sepIndex + 1) dotIndex)
  then (take (Z.to_nat dotIndex) p, drop (Z.to_nat dotIndex) p)
  else (p, []).

End PyStr.
Import PyStr.

Arguments lit _ : simpl never.
Arguments strip _ : simpl never.

(** ** Values, effects and the outside world *)

Abbreviation path := (list N) (only parsing).
Abbreviation bytes := (list Byte.byte) (only parsing).

(** One entry of the session log: [(user_text, bot_text)]. *)
Definition turn : Type := pystr * pystr.

(** The object a [st.file_uploader] returns when a file was chosen. *)
Record UploadedFile := { name : pystr; content : bytes }.

(** What the widgets return in one run of the script. *)
Record Inputs := {
  audio_file : option UploadedFile;   (* None when nothing was uploaded *)
  typed : pystr;                      (* st.text_input, "" when left blank *)
  lang_choice : pystr;                (* st.selectbox *)
  run : bool;                         (* the Ask button *)
  clear : bool                        (* the Clear Chat button *)
}.

(** Python exceptions that can travel through the script. *)
Inductive exn :=
| OpenAIError (msg : pystr)      (* raised by the OpenAI client *)
| gTTSError (msg : pystr)        (* raised by gTTS *)
| OSError (msg : pystr)          (* open, tempfile, os.remove *)
| AttributeError (msg : pystr).

Inductive result (A : Type) :=
| Ok (a : A)
| Raised (e : exn).
Arguments Ok {A} a.
Arguments Raised {A} e.

(** Requests as they leave the process. *)
Record transcription_request := {
  tr_model : pystr; tr_file : bytes; tr_temperature : Q }.
Record completion_request := {
  cr_model : pystr; cr_system : pystr; cr_user : pystr;
  cr_temperature : Q; cr_max_tokens : N }.
Record tts_request := {
  tts_text : pystr; tts_lang : pystr; tts_tld : pystr; tts_slow : bool }.

(** Everything the script does not control. *)
Record World := {
  environ : gmap (list N) (list N);                  (* os.environ *)
  temp_name : pystr -> path;                         (* name tempfile picks for a suffix *)
  transcriptions_create : transcription_request -> result pystr;
  completions_create : completion_request -> result pystr;
  gtts_write : tts_request -> result bytes;
  remove_fault : path -> option exn                  (* os.remove refusing a path *)
}.

(** The calls of the three adapters, and the other visible effects. *)
Inductive call :=
| transcribe_with_whisper_call (p : path)
| chat_response_call (user_text : pystr)
| synthesize_gtts_call (text lang_code : pystr) (indian_accent : bool).

Inductive markup :=
| Style | Hero | Heading | ChatOpen
| UserBubble (m : pystr) | BotBubble (m : pystr) | ChatClose.

Inductive widget := FileUploader | TextInput | SelectBox | AskButton | ClearButton.

Inductive phase := Listening | Thinking | Speaking.

Inductive event :=
| SetPageConfig
| Markdown (m : markup)
| EnvironGet (key : pystr)
| NewClient (api_key : pystr)
| Widget (w : widget)
| StError (msg : pystr)
| StWarning (msg : pystr)
| StInfo
| Spinner (ph : phase)
| Invoke (c : call)
| TranscriptionApi (r : transcription_request)
| CompletionApi (r : completion_request)
| GttsApi (r : tts_request)
| StAudio (data : bytes) (format : pystr).

(** The mutable state one run works on. *)
Record state := {
  chat_history : option (list turn);   (* None: key not in st.session_state *)
  files : gmap (list N) (list Byte.byte);
  trace : list event
}.

(** How a run can leave the straight line: [st.stop()],
    [st.experimental_rerun()], or a Python exception. *)
Inductive signal :=
| Stop
| Rerun
| Exn (e : exn).

Inductive outcome (A : Type) :=
| Normal (a : A)
| Abrupt (s : signal).
Arguments Normal {A} a.
Arguments Abrupt {A} s.

Module Script.

Definition M (A : Type) : Type := state -> outcome A * state.

Definition ret {A} (a : A) : M A := fun s => (Normal a, s).

Definition bind {A B} (m : M A) (k : A -> M B) : M B :=
  fun s =>
    match m s with
    | (Normal a, s') => k a s'
    | (Abrupt sg, s') => (Abrupt sg, s')
    end.

Definition throw {A} (sg : signal) : M A := fun s => (Abrupt sg, s).

Definition lift {A} (r : result A) : M A :=
  match r with
  | Ok a => ret a
  | Raised e => throw (Exn e)
  end.

(** [try: body finally: cleanup] *)
Definition try_finally {A} (body : M A) (cleanup : M unit) : M A :=
  fun s =>
    match body s with
    | (o, s') =>
        match cleanup s' with
        | (Normal _, s'') => (o, s'')
        | (Abrupt sg, s'') => (Abrupt sg, s'')
        end
    end.

(** [try: body except Exception: handler].  [st.stop()] and the rerun
    request are not [Exception]s and pass through. *)
Definition try_except {A} (body : M A) (handler : M A) : M A :=
  fun s =>
    match body s with
    | (Abrupt (Exn _), s') => handler s'
    | r => r
    end.

Definition emit (e : event) : M unit :=
  fun s => (Normal tt,
            {| chat_history := chat_history s; files := files s;
               trace := trace s ++ [e] |}).

Definition get_history : M (option (list turn)) :=
  fun s => (Normal (chat_history s), s).

Definition set_history (h : list turn) : M unit :=
  fun s => (Normal tt,
            {| chat_history := Some h; files := files s; trace := trace s |}).

Definition get_files : M (gmap (list N) (list Byte.byte)) :=
  fun s => (Normal (files s), s).

Definition set_files (f : gmap (list N) (list Byte.byte)) : M unit :=
  fun s => (Normal tt,
            {| chat_history := chat_history s; files := f; trace := trace s |}).

End Script.
Import Script.

Declare Scope script_scope.
Delimit Scope script_scope with script.
Notation "x <- m ;; k" := (bind m (fun x => k))
  (at level 100, m at next level, k at level 200, right associativity,
   only parsing) : script_scope.
Notation "m ;; k" := (bind m (fun _ => k))
  (at level 100, k at level 200, right associativity,
   only parsing) : script_scope.
Open Scope script_scope.

(** ** The script, top to bottom *)

Module App.

Fixpoint eqb (a b : pystr) : bool :=
  match a, b with
  | [], [] => true
  | x :: a', y :: b' => (x =? y)%N && eqb a' b'
  | _, _ => false
  end.

(** [SYSTEM_PROMPT]; the range in "2-4" is written with U+2013. *)
Definition SYSTEM_PROMPT : pystr :=
  lit "You are a calm, empathetic Indian wellness guide. " ++
  lit "Answer in 2" ++ [8211%N] ++
  lit "4 short sentences. Draw on meditation, pranayama, yoga, Ayurveda, " ++
  lit "and Indian spiritual wisdom in simple, practical language. " ++
  lit "Avoid medical claims; suggest consulting professionals for serious issues.".

Definition st_stop {A} : M A := throw Stop.
Definition st_experimental_rerun {A} : M A := throw Rerun.

(** [os.environ.get(key)] *)
Definition os_environ_get (w : World) (key : pystr) : M (option pystr) :=
  emit (EnvironGet key) ;;
  ret (environ w !! key).

(** [not OPENAI_KEY]: true for [None] and for the empty string. *)
Definition not_key (k : option pystr) : bool :=
  match k with
  | None => true
  | Some v => negb (truthy v)
  end.

(** [open(path, "rb")] followed by reading the whole file. *)
Definition open_rb (p : path) : M bytes :=
  f <- get_files ;;
  match f !! p with
  | Some b => ret b
  | None => throw (Exn (OSError (lit "No such file or directory")))
  end.

(** [tempfile.NamedTemporaryFile(delete=False, suffix=...)]: a new, empty
    file under the name the system picks; a name already taken is refused
    (the file is opened with O_EXCL). *)
Definition NamedTemporaryFile (w : World) (suffix : pystr) : M path :=
  let p := temp_name w suffix in
  f <- get_files ;;
  match f !! p with
  | Some _ => throw (Exn (OSError (lit "No usable temporary file name found")))
  | None => set_files (<[p := []]> f) ;; ret p
  end.

(** [tmp.write(data)] (a full disk is not modelled) *)
Definition tmp_write (p : path) (data : bytes) : M unit :=
  f <- get_files ;;
  set_files (<[p := default [] (f !! p) ++ data]> f).

(** [os.remove(path)] *)
Definition os_remove (w : World) (p : path) : M unit :=
  match remove_fault w p with
  | Some e => throw (Exn e)
  | None =>
      f <- get_files ;;
      match f !! p with
      | Some _ => set_files (delete p f)
      | None => throw (Exn (OSError (lit "No such file or directory")))
      end
  end.

Definition whisper_request (f : bytes) : transcription_request :=
  {| tr_model := lit "whisper-1"; tr_file := f; tr_temperature := 0%Q |}.

Definition transcribe_with_whisper (w : World) (p : path) : M pystr :=
  emit (Invoke (transcribe_with_whisper_call p)) ;;
  f <- open_rb p ;;
  let rq := whisper_request f in
  emit (TranscriptionApi rq) ;;
  text <- lift (transcriptions_create w rq) ;;
  ret (strip text).

Definition chat_request (user_text : pystr) : completion_request :=
  {| cr_model := lit "gpt-4o-mini"; cr_system := SYSTEM_PROMPT;
     cr_user := user_text; cr_temperature := 0.7%Q; cr_max_tokens := 250 |}.

Definition chat_response (w : World) (user_text : pystr) : M pystr :=
  emit (Invoke (chat_response_call user_text)) ;;
  let rq := chat_request user_text in
  emit (CompletionApi rq) ;;
  content <- lift (completions_create w rq) ;;
  ret (strip content).

Definition tld_of (lang_code : pystr) (indian_accent : bool) : pystr :=
  if eqb lang_code (lit "en") && indian_accent then lit "co.in" else lit "com".

Definition gtts_request (text lang tld : pystr) : tts_request :=
  {| tts_text := text; tts_lang := lang; tts_tld := tld; tts_slow := false |}.

Definition synthesize_gtts (w : World) (text lang_code : pystr)
    (indian_accent : bool) : M bytes :=
  emit (Invoke (synthesize_gtts_call text lang_code indian_accent)) ;;
  let tld := tld_of lang_code indian_accent in
  let rq := gtts_request text lang_code tld in
  emit (GttsApi rq) ;;
  buf <- lift (gtts_write w rq) ;;
  ret buf.

(** Default of the [indian_accent] parameter. *)
Definition indian_accent_default : bool := true.

(** [st.session_state.chat_history], an [AttributeError] when unset. *)
Definition read_history : M (list turn) :=
  h <- get_history ;;
  match h with
  | Some l => ret l
  | None => throw (Exn (AttributeError (lit "chat_history")))
  end.

(** [st.session_state.chat_history.append(t)] *)
Definition append_turn (t : turn) : M unit :=
  l <- read_history ;;
  set_history (l ++ [t]).

(** Lines 90-95: the credential check. *)
Definition openai_setup (w : World) : M unit :=
  OPENAI_KEY <- os_environ_get w (lit "OPENAI_API_KEY") ;;
  (if not_key OPENAI_KEY then
     emit (StError (lit "OPENAI_API_KEY is missing. Set it in your environment.")) ;;
     st_stop
   else ret tt) ;;
  emit (NewClient (default [] OPENAI_KEY)).

(** Lines 135-140: the session log and the Clear Chat button. *)
Definition history_block (i : Inputs) : M unit :=
  h <- get_history ;;
  (match h with
   | None => set_history []
   | Some _ => ret tt
   end) ;;
  emit (Widget ClearButton) ;;
  if clear i then
    set_history [] ;;
    st_experimental_rerun
  else ret tt.

(** [not audio_file]: an uploaded file object is always true. *)
Definition not_file (a : option UploadedFile) : bool :=
  match a with
  | None => true
  | Some _ => false
  end.

(** Lines 148-160: the audio branch of the ask handler. *)
Definition listen (w : World) (a : UploadedFile) : M pystr :=
  emit (Spinner Listening) ;;
  tmp_path <- NamedTemporaryFile w (snd (splitext (name a))) ;;
  tmp_write tmp_path (content a) ;;
  try_finally (transcribe_with_whisper w tmp_path)
              (try_except (os_remove w tmp_path) (ret tt)).

(** Lines 143-165: the ask handler. *)
Definition ask (w : World) (i : Inputs) : M unit :=
  (if not_file (audio_file i) && negb (truthy (typed i)) then
     emit (StWarning (lit "Please upload audio or type something.")) ;;
     st_stop
   else ret tt) ;;
  let user_text := if truthy (typed i) then strip (typed i) else [] in
  user_text <-
    match audio_file i with
    | Some a => listen w a
    | None => ret user_text
    end ;;
  emit (Spinner Thinking) ;;
  bot_text <- chat_response w user_text ;;
  append_turn (user_text, bot_text).

(** Lines 168-174: the chat thread. *)
Fixpoint bubbles (l : list turn) : M unit :=
  match l with
  | [] => ret tt
  | (user_msg, bot_msg) :: l' =>
      emit (Markdown (UserBubble user_msg)) ;;
      emit (Markdown (BotBubble bot_msg)) ;;
      bubbles l'
  end.

Definition chat_display : M unit :=
  emit (Markdown ChatOpen) ;;
  l <- read_history ;;
  bubbles l ;;
  emit (Markdown ChatClose).

(** Lines 177-184: speech for the most recent reply. *)
Definition voice_output (w : World) (i : Inputs) : M unit :=
  l <- read_history ;;
  match last l with
  | Some (_, last_bot_text) =>
      emit (Spinner Speaking) ;;
      audio_fp <-
        (if startswith (lang_choice i) (lit "Hindi") then
           synthesize_gtts w last_bot_text (lit "hi") indian_accent_default
         else
           synthesize_gtts w last_bot_text (lit "en") true) ;;
      emit (StAudio audio_fp (lit "audio/mp3"))
  | None => ret tt
  end.

(** Lines 7-77: page settings, styling and banner. *)
Definition page : M unit :=
  emit SetPageConfig ;;
  emit (Markdown Style) ;;
  emit (Markdown Hero).

(** Lines 127-132: heading and input widgets (their values are [Inputs]). *)
Definition main_app : M unit :=
  emit (Markdown Heading) ;;
  emit (Widget FileUploader) ;;
  emit (Widget TextInput) ;;
  emit (Widget SelectBox) ;;
  emit (Widget AskButton).

Definition logic (w : World) (i : Inputs) : M unit :=
  if run i then ask w i else ret tt.

(** The whole file. *)
Definition app (w : World) (i : Inputs) : M unit :=
  page ;;
  openai_setup w ;;
  main_app ;;
  history_block i ;;
  logic w i ;;
  chat_display ;;
  voice_output w i ;;
  emit StInfo.

(** One run of the script on a session, with a fresh trace. *)
Definition start (h : option (list turn)) (f : gmap (list N) (list Byte.byte)) : state :=
  {| chat_history := h; files := f; trace := [] |}.

Definition run_script (w : World) (i : Inputs) (h : option (list turn))
    (f : gmap (list N) (list Byte.byte)) : outcome unit * state :=
  app w i (start h f).

(** The widgets as the rerun sees them: values kept, buttons released. *)
Definition released (i : Inputs) : Inputs :=
  {| audio_file := audio_file i; typed := typed i;
     lang_choice := lang_choice i; run := false; clear := false |}.

(** One user interaction: a run, and the run a rerun request asks for. *)
Definition interaction (w : World) (i : Inputs) (s : state) : outcome unit * state :=
  match app w i s with
  | (Abrupt Rerun, s') => app w (released i) s'
  | r => r
  end.

(** The session log as the user sees it. *)
Definition log (s : state) : list turn := default [] (chat_history s).

Definition is_adapter_call (e : event) : bool :=
  match e with
  | Invoke _ | TranscriptionApi _ | CompletionApi _ | GttsApi _ => true
  | _ => false
  end.

Definition is_synthesis (e : event) : bool :=
  match e with
  | Invoke (synthesize_gtts_call _ _ _) | GttsApi _ => true
  | _ => false
  end.

End App.
Import App.

(** ** Vocabulary of the proofs *)

(** The state after the events [evs] were added to the trace. *)
Definition emits (s : state) (evs : list event) : state :=
  {| chat_history := chat_history s; files := files s; trace := trace s ++ evs |}.

Definition with_history (s : state) (h : list turn) : state :=
  {| chat_history := Some h; files := files s; trace := trace s |}.

Definition with_files (s : state) (f : gmap (list N) (list Byte.byte)) : state :=
  {| chat_history := chat_history s; files := f; trace := trace s |}.

Definition KEY : pystr := lit "OPENAI_API_KEY".

Definition opening_events : list event :=
  [SetPageConfig; Markdown Style; Markdown Hero; EnvironGet KEY].

Definition missing_key_message : pystr :=
  lit "OPENAI_API_KEY is missing. Set it in your environment.".

Definition widgets_events (k : pystr) : list event :=
  opening_events ++
  [NewClient k; Markdown Heading; Widget FileUploader; Widget TextInput;
   Widget SelectBox; Widget AskButton; Widget ClearButton].

(** The part of the script after the Clear Chat button. *)
Definition body (w : World) (i : Inputs) : M unit :=
  logic w i ;;
  chat_display ;;
  voice_output w i ;;
  emit StInfo.

(** The state in which the ask logic starts: client built, widgets drawn,
    log initialised. *)
Definition opened (w : World) (s : state) : state :=
  with_history (emits s (widgets_events (default [] (environ w !! KEY)))) (log s).

Definition to_outcome {A} (r : result A) : outcome A :=
  match r with
  | Ok a => Normal a
  | Raised e => Abrupt (Exn e)
  end.

(** What [chat_response] returns for a user text. *)
Definition chat_reply (w : World) (u : pystr) : result pystr :=
  match completions_create w (chat_request u) with
  | Ok c => Ok (strip c)
  | Raised e => Raised e
  end.

(** What [transcribe_with_whisper] returns for an upload. *)
Definition transcript (w : World) (a : UploadedFile) : result pystr :=
  match transcriptions_create w (whisper_request (content a)) with
  | Ok t => Ok (strip t)
  | Raised e => Raised e
  end.

Definition think_events (u : pystr) : list event :=
  [Spinner Thinking; Invoke (chat_response_call u); CompletionApi (chat_request u)].

(** The name the temporary copy of an upload gets. *)
Definition tmp_path_of (w : World) (a : UploadedFile) : path :=
  temp_name w (snd (splitext (name a))).

Definition listen_events (w : World) (a : UploadedFile) : list event :=
  [Spinner Listening;
   Invoke (transcribe_with_whisper_call (tmp_path_of w a));
   TranscriptionApi (whisper_request (content a))].

Definition bubble_events (l : list turn) : list event :=
  flat_map (fun t => [Markdown (UserBubble (fst t)); Markdown (BotBubble (snd t))]) l.

(** The language code the voice block passes on. *)
Definition voice_lang (i : Inputs) : pystr :=
  if startswith (lang_choice i) (lit "Hindi") then lit "hi" else lit "en".

Definition speech_request (i : Inputs) (text : pystr) : tts_request :=
  gtts_request text (voice_lang i) (tld_of (voice_lang i) true).

Definition voice_events (w : World) (i : Inputs) (l : list turn) : list event :=
  match last l with
  | None => []
  | Some (_, b) =>
      [Spinner Speaking;
       Invoke (synthesize_gtts_call b (voice_lang i) true);
       GttsApi (speech_request i b)] ++
      match gtts_write w (speech_request i b) with
      | Ok buf => [StAudio buf (lit "audio/mp3")]
      | Raised _ => []
      end
  end.

Definition voice_outcome (w : World) (i : Inputs) (l : list turn) : outcome unit :=
  match last l with
  | None => Normal tt
  | Some (_, b) =>
      match gtts_write w (speech_request i b) with
      | Ok _ => Normal tt
      | Raised e => Abrupt (Exn e)
      end
  end.

(** What the script does after the ask logic. *)
Definition render_events (w : World) (i : Inputs) (l : list turn) : list event :=
  [Markdown ChatOpen] ++ bubble_events l ++ [Markdown ChatClose] ++
  voice_events w i l ++
  match voice_outcome w i l with
  | Normal _ => [StInfo]
  | Abrupt _ => []
  end.

(** The state and outcome once the user text [u] is settled, from a state
    whose log is [l]: the completion call, the append, and the rendering. *)
Definition replied (w : World) (i : Inputs) (u : pystr) (l : list turn)
    (s : state) : outcome unit * state :=
  match chat_reply w u with
  | Ok T =>
      (voice_outcome w i (l ++ [(u, T)]),
       emits (with_history (emits s (think_events u)) (l ++ [(u, T)]))
         (render_events w i (l ++ [(u, T)])))
  | Raised e => (Abrupt (Exn e), emits s (think_events u))
  end.

Definition no_input_message : pystr := lit "Please upload audio or type something.".

(** The state the audio branch leaves behind. *)
Definition listened (w : World) (a : UploadedFile) (s : state) : state :=
  with_files (emits s (listen_events w a))
    (match remove_fault w (tmp_path_of w a) with
     | Some _ => <[tmp_path_of w a := content a]> (files s)
     | None => files s
     end).

(** The user text a cycle settles on, and the state it is settled in. *)
Inductive settled (w : World) (i : Inputs) (s : state) : pystr -> state -> Prop :=
| settled_typed :
    audio_file i = None -> typed i <> [] ->
    settled w i s (strip (typed i)) s
| settled_heard a u :
    audio_file i = Some a ->
    files s !! tmp_path_of w a = None ->
    transcript w a = Ok u ->
    settled w i s u (listened w a s).

Inductive shape (w : World) (i : Inputs) (s : state) : outcome unit * state -> Prop :=
| shape_no_key :
    not_key (environ w !! KEY) = true ->
    shape w i s
      (Abrupt Stop, emits s (opening_events ++ [StError missing_key_message]))
| shape_clear :
    not_key (environ w !! KEY) = false -> clear i = true ->
    shape w i s
      (Abrupt Rerun,
       with_history (emits s (widgets_events (default [] (environ w !! KEY)))) [])
| shape_idle :
    not_key (environ w !! KEY) = false -> clear i = false ->
    run i = false ->
    shape w i s
      (voice_outcome w i (log s),
       emits (opened w s) (render_events w i (log s)))
| shape_no_input :
    not_key (environ w !! KEY) = false -> clear i = false ->
    run i = true -> audio_file i = None -> typed i = [] ->
    shape w i s
      (Abrupt Stop, emits (opened w s) [StWarning no_input_message])
| shape_collision a b :
    not_key (environ w !! KEY) = false -> clear i = false ->
    run i = true -> audio_file i = Some a ->
    files s !! tmp_path_of w a = Some b ->
    shape w i s
      (Abrupt (Exn (OSError (lit "No usable temporary file name found"))),
       emits (opened w s) [Spinner Listening])
| shape_unheard a e :
    not_key (environ w !! KEY) = false -> clear i = false ->
    run i = true -> audio_file i = Some a ->
    files s !! tmp_path_of w a = None ->
    transcript w a = Raised e ->
    shape w i s (Abrupt (Exn e), listened w a (opened w s))
| shape_unanswered u s1 e :
    not_key (environ w !! KEY) = false -> clear i = false ->
    run i = true -> settled w i (opened w s) u s1 ->
    chat_reply w u = Raised e ->
    shape w i s (Abrupt (Exn e), emits s1 (think_events u))
| shape_answered u s1 T :
    not_key (environ w !! KEY) = false -> clear i = false ->
    run i = true -> settled w i (opened w s) u s1 ->
    chat_reply w u = Ok T ->
    shape w i s
      (voice_outcome w i (log s ++ [(u, T)]),
       emits (with_history (emits s1 (think_events u)) (log s ++ [(u, T)]))
         (render_events w i (log s ++ [(u, T)]))).

(** The events of the rendering part: markup, the speaking spinner, the
    synthesis call with the selected language, the player and the tip. *)
Definition render_kind (i : Inputs) (e : event) : Prop :=
  match e with
  | Markdown _ | StInfo | StAudio _ _ | Spinner Speaking => True
  | Invoke (synthesize_gtts_call _ lang acc) => lang = voice_lang i /\ acc = true
  | GttsApi r =>
      tts_lang r = voice_lang i /\ tts_tld r = tld_of (voice_lang i) true
  | _ => False
  end.

(** The conditions under which the ask logic is entered. *)
Definition asked (w : World) (i : Inputs) : Prop :=
  not_key (environ w !! KEY) = false /\ clear i = false /\ run i = true.

(** What must hold of a run for an event to be in its trace. *)
Definition justified (w : World) (i : Inputs) (s : state) (e : event) : Prop :=
  match e with
  | Invoke (transcribe_with_whisper_call p) =>
      asked w i /\
      exists a, audio_file i = Some a /\ p = tmp_path_of w a /\
                files s !! p = None
  | TranscriptionApi r =>
      asked w i /\
      exists a, audio_file i = Some a /\ r = whisper_request (content a) /\
                files s !! tmp_path_of w a = None
  | Invoke (chat_response_call u) =>
      asked w i /\ exists s1, settled w i (opened w s) u s1
  | CompletionApi r =>
      asked w i /\
      exists u s1, r = chat_request u /\ settled w i (opened w s) u s1
  | Invoke (synthesize_gtts_call _ lang acc) =>
      lang = voice_lang i /\ acc = true
  | GttsApi r =>
      tts_lang r = voice_lang i /\ tts_tld r = tld_of (voice_lang i) true
  | _ => True
  end.

(** Projections of the states built by the run equations. *)
Ltac state_simpl :=
  cbn [trace files chat_history emits with_history with_files opened listened
       start fst snd app log default from_option].

(** ** Sample sessions *)

Module Sample.

Definition key_env : gmap (list N) (list N) := {[ KEY := lit "sk-test" ]}.

(** A world whose services answer the same thing to every request. *)
Definition world (env : gmap (list N) (list N)) (heard reply : result pystr)
    (fault : option exn) : World :=
  {| environ := env;
     temp_name := fun suffix => lit "/tmp/tmpk3x9" ++ suffix;
     transcriptions_create := fun _ => heard;
     completions_create := fun _ => reply;
     gtts_write := fun _ => Ok [];
     remove_fault := fun _ => fault |}.

Definition calm : pystr := lit "Breathe slowly.".

Definition w_ok : World := world key_env (Ok (lit " I cannot sleep ")) (Ok calm) None.

Definition form (a : option UploadedFile) (t lang : pystr) (r c : bool) : Inputs :=
  {| audio_file := a; typed := t; lang_choice := lang; run := r; clear := c |}.

Definition clip : UploadedFile := {| name := lit "clip.wav"; content := [] |}.

Definition English : pystr := lit "English (India)".
Definition Hindi : pystr := lit "Hindi".

(** The scenario of the specification. *)
Definition anxious : pystr := lit "I feel anxious before exams".
Definition breathe : pystr :=
  lit "Breathe slowly for four counts, hold, then release " ++ [8212%N] ++
  lit " this calms the nervous system. Try this before your exam.".

End Sample.

(** ** Vocabulary of the properties *)

(** The synthesis events agree with the language selector. *)
Definition spoken_as_selected (i : Inputs) (e : event) : Prop :=
  match e with
  | Invoke (synthesize_gtts_call _ lang acc) =>
      if startswith (lang_choice i) (lit "Hindi")
      then lang = lit "hi"
      else lang = lit "en" /\ acc = true
  | GttsApi r =>
      if startswith (lang_choice i) (lit "Hindi")
      then tts_lang r = lit "hi"
      else tts_lang r = lit "en" /\ tts_tld r = lit "co.in"
  | _ => True
  end.

Definition is_env_read (e : event) : bool :=
  match e with
  | EnvironGet _ => true
  | _ => false
  end.

(** How often the environment was read in a trace. *)
Definition env_reads (t : list event) : nat :=
  length (List.filter is_env_read t).

(** The widgets of [i] with another typed text. *)
Definition retyped (i : Inputs) (t : pystr) : Inputs :=
  {| audio_file := audio_file i; typed := t; lang_choice := lang_choice i;
     run := run i; clear := clear i |}.

(** How the log after a step relates to the log before it. *)
Definition log_step (l l' : list turn) : Prop :=
  l' = l \/ (exists t, l' = l ++ [t]) \/ l' = [].

(** Membership of an event in a computed trace, by its position. *)
Ltac at_index n :=
  apply (list_elem_of_lookup_2 _ n); vm_compute; reflexivity.

Definition quiet (e : event) : Prop := is_env_read e = false.

(** ** Vocabulary of the pipeline properties *)

(** The adapter calls of a trace, in the order they were made. *)
Definition invokes (t : list event) : list call :=
  flat_map (fun e => match e with Invoke c => [c] | _ => [] end) t.

(** The synthesis call the voice block makes for a log. *)
Definition spoken (i : Inputs) (l : list turn) : list call :=
  match last l with
  | None => []
  | Some (_, b) => [synthesize_gtts_call b (voice_lang i) true]
  end.

Definition is_bubble (e : event) : bool :=
  match e with
  | Markdown (UserBubble _) | Markdown (BotBubble _) => true
  | _ => false
  end.

(** A text without whitespace at either end. *)
Definition trimmed (s : pystr) : Prop :=
  (forall c, head s = Some c -> isspace c = false) /\
  (forall c, last s = Some c -> isspace c = false).

Definition trimmed_turn (t : turn) : Prop := trimmed t.1 /\ trimmed t.2.

(** A browser session: one interaction after the other, each with the
    answers the world gives at that time. *)
Fixpoint session (steps : list (World * Inputs)) (s : state) : state :=
  match steps with
  | [] => s
  | (w, i) :: rest => session rest (interaction w i s).2
  end.

(** The transcription call of a cycle, when a file was uploaded. *)
Definition heard (w : World) (i : Inputs) : list call :=
  match audio_file i with
  | Some a => [transcribe_with_whisper_call (tmp_path_of w a)]
  | None => []
  end.

(** At most one call, and of the given kind. *)
Definition at_most_one (kind : call -> Prop) (cs : list call) : Prop :=
  cs = [] \/ exists c, cs = [c] /\ kind c.

Definition is_transcription (c : call) : Prop :=
  match c with transcribe_with_whisper_call _ => True | _ => False end.

Definition is_completion (c : call) : Prop :=
  match c with chat_response_call _ => True | _ => False end.

Definition is_speech (c : call) : Prop :=
  match c with synthesize_gtts_call _ _ _ => True | _ => False end.

(** ** Facts about strings *)

Section Strings.

Example strip_ex : strip (lit "  hi there ") = lit "hi there".
Proof. reflexivity. Qed.
Example splitext_ex1 : splitext (lit "clip.wav") = (lit "clip", lit ".wav").
Proof. reflexivity. Qed.
Example splitext_ex2 : splitext (lit ".bashrc") = (lit ".bashrc", []).
Proof. reflexivity. Qed.
Example splitext_ex3 : splitext (lit "a.b/c") = (lit "a.b/c", []).
Proof. reflexivity. Qed.
Example splitext_ex4 : splitext (lit "d/..x.tar.mp3") = (lit "d/..x.tar", lit ".mp3").
Proof. reflexivity. Qed.

Lemma lstrip_all (s : pystr) : lstrip s = [] <-> forallb isspace s = true.
Proof.
  induction s as [|c s IH]; simpl; [tauto|].
  destruct (isspace c); simpl; [exact IH|].
  split; discriminate.
Qed.

Lemma lstrip_head (s : pystr) c t : lstrip s = c :: t -> isspace c = false.
Proof.
  induction s as [|x s IH]; simpl; [discriminate|].
  destruct (isspace x) eqn:E; [exact IH|].
  intros [= -> _]. exact E.
Qed.

Lemma forallb_rev (P : N -> bool) (s : pystr) :
  forallb P (rev s) = forallb P s.
Proof.
  induction s as [|c s IH]; simpl; [reflexivity|].
  rewrite forallb_app, IH. simpl. rewrite andb_true_r. apply andb_comm.
Qed.

(** [s.strip()] is empty exactly when [s] is made of whitespace only. *)
Lemma strip_nil (s : pystr) : strip s = [] <-> forallb isspace s = true.
Proof.
  unfold strip, rstrip. split.
  - intros H. apply (f_equal (@rev N)) in H. rewrite rev_involutive in H.
    simpl in H. apply lstrip_all in H. rewrite forallb_rev in H.
    destruct (lstrip s) as [|c t] eqn:E; [apply lstrip_all; exact E|].
    apply lstrip_head in E. simpl in H. rewrite E in H. discriminate.
  - intros H. apply lstrip_all in H. rewrite H. reflexivity.
Qed.


End Strings.

(** ** Running the blocks of the script *)

Section Runs.

Lemma emits_emits s a b : emits (emits s a) b = emits s (a ++ b).
Proof. unfold emits; simpl. by rewrite app_assoc. Qed.

Lemma emit_run e s : emit e s = (Normal tt, emits s [e]).
Proof. reflexivity. Qed.

(** Without a usable key the run ends at the check. *)
Lemma app_without_key w i s :
  not_key (environ w !! KEY) = true ->
  app w i s =
    (Abrupt Stop, emits s (opening_events ++ [StError missing_key_message])).
Proof.
  intros Hk. unfold app, bind, page, openai_setup, os_environ_get, bind.
  unfold KEY in *. simpl. rewrite Hk. unfold emits. simpl.
  by rewrite <- !app_assoc.
Qed.

(** With a key and the Clear Chat button pressed, the log is reset and a
    rerun is requested. *)
Lemma app_clear w i s :
  not_key (environ w !! KEY) = false -> clear i = true ->
  app w i s =
    (Abrupt Rerun,
     with_history (emits s (widgets_events (default [] (environ w !! KEY)))) []).
Proof.
  intros Hk Hc.
  unfold app, bind, page, openai_setup, os_environ_get, main_app,
    history_block, bind.
  unfold KEY in *. destruct s as [[l|] f t]; simpl; rewrite Hk, Hc;
    unfold with_history, emits; simpl; rewrite <- !app_assoc; reflexivity.
Qed.

Lemma app_open w i s :
  not_key (environ w !! KEY) = false -> clear i = false ->
  app w i s = body w i (opened w s).
Proof.
  intros Hk Hc.
  unfold app, bind, page, openai_setup, os_environ_get, main_app,
    history_block, bind.
  unfold KEY in *. destruct s as [[l|] f t]; simpl; rewrite Hk, Hc;
    unfold opened, with_history, emits, log; simpl; rewrite <- !app_assoc;
    reflexivity.
Qed.

Lemma chat_response_run w u s :
  chat_response w u s =
    (to_outcome (chat_reply w u),
     emits s [Invoke (chat_response_call u); CompletionApi (chat_request u)]).
Proof.
  unfold chat_response, chat_reply, bind, lift. rewrite !emit_run, emits_emits.
  destruct (completions_create w (chat_request u)); reflexivity.
Qed.

(** The audio branch when the temporary name is free: the transcript (or
    the error) comes back, and the copy is gone unless [os.remove] refused. *)
Lemma listen_run w a s :
  files s !! tmp_path_of w a = None ->
  listen w a s =
    (to_outcome (transcript w a),
     with_files (emits s (listen_events w a))
       (match remove_fault w (tmp_path_of w a) with
        | Some _ => <[tmp_path_of w a := content a]> (files s)
        | None => files s
        end)).
Proof.
  intros Hfree.
  unfold listen, try_finally, try_except, transcribe_with_whisper, os_remove,
    NamedTemporaryFile, tmp_write, open_rb, bind, lift, transcript.
  fold (tmp_path_of w a). rewrite !emit_run. simpl.
  rewrite Hfree. simpl.
  rewrite !lookup_insert_eq. simpl. rewrite insert_insert_eq.
  unfold with_files, emits, listen_events. simpl.
  rewrite <- !app_assoc. simpl.
  destruct (transcriptions_create w (whisper_request (content a)));
    destruct (remove_fault w (tmp_path_of w a)); simpl;
    rewrite ?lookup_insert_eq; simpl;
    rewrite ?delete_insert_eq, ?delete_id by exact Hfree; reflexivity.
Qed.

(** The audio branch when the temporary name is taken. *)
Lemma listen_collision w a s b :
  files s !! tmp_path_of w a = Some b ->
  listen w a s =
    (Abrupt (Exn (OSError (lit "No usable temporary file name found"))),
     emits s [Spinner Listening]).
Proof.
  intros Hb. unfold listen, NamedTemporaryFile, bind.
  fold (tmp_path_of w a). rewrite emit_run. simpl. rewrite Hb. reflexivity.
Qed.

Lemma bubbles_run l s : bubbles l s = (Normal tt, emits s (bubble_events l)).
Proof.
  revert s. induction l as [|[u b] l IH]; intros s.
  - unfold emits. simpl. rewrite app_nil_r. by destruct s.
  - simpl. unfold bind. rewrite !emit_run, IH, !emits_emits. reflexivity.
Qed.

Lemma chat_display_run l s :
  chat_history s = Some l ->
  chat_display s =
    (Normal tt,
     emits s ([Markdown ChatOpen] ++ bubble_events l ++ [Markdown ChatClose])).
Proof.
  intros Hl. unfold chat_display, read_history, get_history, bind.
  rewrite emit_run. simpl. rewrite Hl. unfold ret.
  rewrite bubbles_run, emit_run, !emits_emits. reflexivity.
Qed.

Lemma voice_output_run w i l s :
  chat_history s = Some l ->
  voice_output w i s = (voice_outcome w i l, emits s (voice_events w i l)).
Proof.
  intros Hl. unfold voice_output, read_history, get_history, bind.
  rewrite Hl. unfold ret, voice_outcome, voice_events.
  destruct (last l) as [[u b]|].
  2:{ unfold emits. rewrite app_nil_r. by destruct s. }
  rewrite emit_run. unfold speech_request, voice_lang, indian_accent_default.
  destruct (startswith (lang_choice i) (lit "Hindi"));
    unfold synthesize_gtts, bind, lift; rewrite !emit_run;
    match goal with |- context [gtts_write w ?r] => destruct (gtts_write w r) end;
    unfold ret, throw; rewrite ?emit_run, !emits_emits; reflexivity.
Qed.

Lemma render_run w i l s :
  chat_history s = Some l ->
  (chat_display ;; voice_output w i ;; emit StInfo) s =
    (voice_outcome w i l, emits s (render_events w i l)).
Proof.
  intros Hl. unfold bind at 1. rewrite (chat_display_run l) by exact Hl.
  unfold bind. rewrite (voice_output_run w i l) by exact Hl.
  unfold render_events.
  destruct (voice_outcome w i l) as [[]|sg];
    rewrite ?emit_run, !emits_emits, <- ?app_assoc; simpl;
    rewrite ?app_nil_r, <- ?app_assoc; reflexivity.
Qed.

Lemma think_run w i u l s :
  chat_history s = Some l ->
  ((emit (Spinner Thinking) ;;
    bot_text <- chat_response w u ;;
    append_turn (u, bot_text)) ;;
   chat_display ;; voice_output w i ;; emit StInfo) s = replied w i u l s.
Proof.
  intros Hl. unfold replied.
  unfold bind at 1. unfold bind at 1. rewrite emit_run.
  unfold bind at 1. rewrite chat_response_run, emits_emits.
  destruct (chat_reply w u) as [T|e]; simpl; [|reflexivity].
  unfold append_turn, read_history, get_history.
  unfold bind at 1. unfold bind at 1. unfold bind at 1.
  cbn [chat_history emits]. rewrite Hl. cbn [ret set_history].
  apply (render_run w i (l ++ [(u, T)])). reflexivity.
Qed.

Lemma body_idle w i l s :
  run i = false -> chat_history s = Some l ->
  body w i s = (voice_outcome w i l, emits s (render_events w i l)).
Proof.
  intros Hr Hl. unfold body, logic. rewrite Hr.
  unfold bind at 1. simpl. by apply render_run.
Qed.

Lemma body_no_input w i s :
  run i = true -> audio_file i = None -> typed i = [] ->
  body w i s = (Abrupt Stop, emits s [StWarning no_input_message]).
Proof.
  intros Hr Ha Ht. unfold body, logic, ask. rewrite Hr, Ha, Ht. reflexivity.
Qed.

Lemma body_typed w i l s :
  run i = true -> audio_file i = None -> typed i <> [] ->
  chat_history s = Some l ->
  body w i s = replied w i (strip (typed i)) l s.
Proof.
  intros Hr Ha Ht Hl. rewrite <- (think_run w i _ l s Hl).
  unfold body, logic, ask. rewrite Hr, Ha.
  destruct (typed i) as [|c t]; [done|]. reflexivity.
Qed.

Lemma body_audio_collision w i a b s :
  run i = true -> audio_file i = Some a ->
  files s !! tmp_path_of w a = Some b ->
  body w i s =
    (Abrupt (Exn (OSError (lit "No usable temporary file name found"))),
     emits s [Spinner Listening]).
Proof.
  intros Hr Ha Hb. unfold body, logic, ask. rewrite Hr, Ha. simpl.
  unfold bind. simpl. rewrite (listen_collision w a _ b Hb). reflexivity.
Qed.

Lemma body_audio w i a l s :
  run i = true -> audio_file i = Some a ->
  files s !! tmp_path_of w a = None ->
  chat_history s = Some l ->
  body w i s =
    match transcript w a with
    | Ok u => replied w i u l (listened w a s)
    | Raised e => (Abrupt (Exn e), listened w a s)
    end.
Proof.
  intros Hr Ha Hf Hl.
  destruct (transcript w a) as [u|e] eqn:Htr.
  - rewrite <- (think_run w i u l (listened w a s) Hl).
    unfold body, logic, ask. rewrite Hr, Ha. simpl.
    unfold bind at 1. unfold bind at 1. simpl.
    unfold bind at 1. rewrite (listen_run w a s Hf), Htr. reflexivity.
  - unfold body, logic, ask. rewrite Hr, Ha. simpl.
    unfold bind at 1. unfold bind at 1. simpl.
    unfold bind at 1. rewrite (listen_run w a s Hf), Htr. reflexivity.
Qed.

End Runs.

(** ** Every way a run can end *)

Section Shapes.

Lemma opened_history w s : chat_history (opened w s) = Some (log s).
Proof. reflexivity. Qed.

Lemma opened_files w s : files (opened w s) = files s.
Proof. reflexivity. Qed.

Lemma replied_shape w i s u s1 :
  not_key (environ w !! KEY) = false -> clear i = false -> run i = true ->
  settled w i (opened w s) u s1 ->
  shape w i s (replied w i u (log s) s1).
Proof.
  intros Hk Hc Hr Hs. unfold replied.
  destruct (chat_reply w u) as [T|e] eqn:E.
  - by apply shape_answered.
  - by apply shape_unanswered.
Qed.

(** The script always ends in one of the eight ways. *)
Lemma app_shape w i s : shape w i s (app w i s).
Proof.
  destruct (not_key (environ w !! KEY)) eqn:Hk.
  { rewrite app_without_key by done. by constructor. }
  destruct (clear i) eqn:Hc.
  { rewrite app_clear by done. by constructor. }
  rewrite app_open by done.
  destruct (run i) eqn:Hr.
  2:{ rewrite (body_idle w i (log s)) by done. by constructor. }
  destruct (audio_file i) as [a|] eqn:Ha.
  - destruct (files s !! tmp_path_of w a) as [b|] eqn:Hf.
    + rewrite (body_audio_collision w i a b) by done. by eapply shape_collision.
    + rewrite (body_audio w i a (log s)) by done.
      destruct (transcript w a) as [u|e] eqn:Htr.
      * apply replied_shape; try done. by apply settled_heard.
      * by apply shape_unheard.
  - destruct (typed i) as [|c t] eqn:Ht.
    + rewrite body_no_input by done. by constructor.
    + rewrite (body_typed w i (log s)); try done.
      * apply replied_shape; try done.
        apply settled_typed; [done|]. by rewrite Ht.
      * by rewrite Ht.
Qed.

End Shapes.

(** ** What can appear in a trace *)

Section Traces.

Lemma bubble_events_kind i l e : e ∈ bubble_events l -> render_kind i e.
Proof.
  unfold bubble_events. rewrite list_elem_of_In, in_flat_map.
  intros [t [_ Ht]]. simpl in Ht. destruct Ht as [<-|[<-|[]]]; exact I.
Qed.

Lemma voice_events_kind w i l e : e ∈ voice_events w i l -> render_kind i e.
Proof.
  unfold voice_events. destruct (last l) as [[u b]|]; [|by rewrite elem_of_nil].
  destruct (gtts_write w (speech_request i b)); set_unfold;
    intros H; destruct_or!; subst; simpl; done.
Qed.

Lemma render_events_kind w i l e : e ∈ render_events w i l -> render_kind i e.
Proof.
  unfold render_events. rewrite !elem_of_app.
  intros [H|[H|[H|[H|H]]]].
  - apply list_elem_of_singleton in H. by subst.
  - by eapply bubble_events_kind.
  - apply list_elem_of_singleton in H. by subst.
  - by eapply voice_events_kind.
  - destruct (voice_outcome w i l).
    + apply list_elem_of_singleton in H. by subst.
    + by apply elem_of_nil in H.
Qed.

Lemma render_justified w i s l e :
  e ∈ render_events w i l -> justified w i s e.
Proof.
  intros H. apply render_events_kind in H.
  destruct e as [| | | | | | | |ph|c| | | |]; simpl in *; try done.
  destruct c; simpl in *; done.
Qed.

Lemma not_adapter_justified w i s e :
  is_adapter_call e = false -> justified w i s e.
Proof. destruct e; simpl; done. Qed.

Lemma opening_plain e :
  e ∈ opening_events ++ [StError missing_key_message] -> is_adapter_call e = false.
Proof. unfold opening_events. set_unfold. intros H; destruct_or!; by subst. Qed.

Lemma widgets_plain k e : e ∈ widgets_events k -> is_adapter_call e = false.
Proof.
  unfold widgets_events, opening_events. set_unfold.
  intros H; destruct_or!; by subst.
Qed.

Lemma listen_justified w i s a e :
  asked w i -> audio_file i = Some a -> files s !! tmp_path_of w a = None ->
  e ∈ listen_events w a -> justified w i s e.
Proof.
  intros Hq Ha Hf. unfold listen_events. set_unfold.
  intros H; destruct_or!; subst; simpl; try done; split; eauto.
Qed.

Lemma think_justified w i s u s1 e :
  asked w i -> settled w i (opened w s) u s1 ->
  e ∈ think_events u -> justified w i s e.
Proof.
  intros Hq Hs. unfold think_events. set_unfold.
  intros H; destruct_or!; subst; simpl; try done; split; eauto.
Qed.

(** The trace of a settled state: the widgets, and the listening events
    when the text was heard. *)
Lemma settled_justified w i s u s1 e :
  asked w i -> trace s = [] -> settled w i (opened w s) u s1 ->
  e ∈ trace s1 -> justified w i s e.
Proof.
  intros Hq Ht Hs. destruct Hs as [Ha Hty|a u Ha Hf Htr]; state_simpl;
    rewrite Ht; state_simpl.
  - intros H. by eapply not_adapter_justified, widgets_plain.
  - rewrite elem_of_app. intros [H|H].
    + by eapply not_adapter_justified, widgets_plain.
    + by eapply listen_justified.
Qed.

(** Every event of a run is there for a reason. *)
Lemma run_justified w i h f e :
  e ∈ trace (run_script w i h f).2 -> justified w i (start h f) e.
Proof.
  unfold run_script.
  destruct (app_shape w i (start h f))
    as [Hk|Hk Hc|Hk Hc Hr|Hk Hc Hr Ha Ht|a b Hk Hc Hr Ha Hf|a e' Hk Hc Hr Ha Hf Htr
       |u s1 e' Hk Hc Hr Hs Hrep|u s1 T Hk Hc Hr Hs Hrep];
    state_simpl; intros H.
  - by eapply not_adapter_justified, opening_plain.
  - by eapply not_adapter_justified, widgets_plain.
  - apply elem_of_app in H as [H|H];
      [by eapply not_adapter_justified, widgets_plain|].
    by eapply render_justified.
  - apply elem_of_app in H as [H|H];
      [by eapply not_adapter_justified, widgets_plain|].
    apply list_elem_of_singleton in H. by subst.
  - apply elem_of_app in H as [H|H];
      [by eapply not_adapter_justified, widgets_plain|].
    apply list_elem_of_singleton in H. by subst.
  - apply elem_of_app in H as [H|H];
      [by eapply not_adapter_justified, widgets_plain|].
    by eapply listen_justified.
  - apply elem_of_app in H as [H|H];
      [by eapply settled_justified|by eapply think_justified].
  - apply elem_of_app in H as [H|H]; [|by eapply render_justified].
    apply elem_of_app in H as [H|H];
      [by eapply settled_justified|by eapply think_justified].
Qed.

End Traces.

(** ** Properties of the specification *)

Section Claims.

Lemma not_key_spec (k : option pystr) :
  not_key k = true <-> k = None \/ k = Some [].
Proof.
  destruct k as [[|c t]|]; simpl; split; intros H; try done; auto.
  by destruct H.
Qed.

Lemma app_settled w i s u s1 :
  asked w i -> settled w i (opened w s) u s1 ->
  app w i s = replied w i u (log s) s1.
Proof.
  intros (Hk & Hc & Hr) Hs. rewrite app_open by done.
  destruct Hs as [Ha Hty|a u Ha Hf Htr].
  - by apply body_typed.
  - rewrite (body_audio w i a (log s)) by done. by rewrite Htr.
Qed.

Lemma settled_log w i s u s1 : settled w i s u s1 -> log s1 = log s.
Proof. by intros []. Qed.

(** C1 (as amended): for a non-empty typed input and no audio, when
    [chat_response] returns [T] the run appends exactly one turn, whose user
    text is the typed text with surrounding whitespace removed. *)
Theorem C1_typed_turn_is_stripped_input w i h f T :
  not_key (environ w !! KEY) = false ->
  run i = true -> clear i = false ->
  audio_file i = None -> typed i <> [] ->
  chat_reply w (strip (typed i)) = Ok T ->
  log (run_script w i h f).2 = default [] h ++ [(strip (typed i), T)] /\
  last (log (run_script w i h f).2) = Some (strip (typed i), T).
Proof.
  intros Hk Hr Hc Ha Hty HT.
  assert (log (run_script w i h f).2 = default [] h ++ [(strip (typed i), T)]) as E.
  { unfold run_script.
    rewrite (app_settled w i (start h f) (strip (typed i)) (opened w (start h f)))
      by (done || by apply settled_typed).
    unfold replied. rewrite HT. reflexivity. }
  split; [exact E|]. rewrite E. apply last_snoc.
Qed.

Lemma C1_typed_turn_is_stripped_input_witness :
  log (run_script Sample.w_ok
         (Sample.form None (lit " hi ") Sample.English true false) None ∅).2
    = [(lit "hi", Sample.calm)] /\
  last (log (run_script Sample.w_ok
         (Sample.form None (lit " hi ") Sample.English true false) None ∅).2)
    = Some (lit "hi", Sample.calm).
Proof.
  apply (C1_typed_turn_is_stripped_input Sample.w_ok
           (Sample.form None (lit " hi ") Sample.English true false) None ∅
           Sample.calm).
  all: try (vm_compute; reflexivity).
  discriminate.
Defined.

(** C1 as stated fails: typed text with surrounding whitespace is logged
    without it. *)
Lemma C1_counterexample :
  let i := Sample.form None (lit " hi ") Sample.English true false in
  typed i <> [] /\ audio_file i = None /\
  (forall u, chat_reply Sample.w_ok u = Ok Sample.calm) /\
  last (log (run_script Sample.w_ok i None ∅).2) <> Some (typed i, Sample.calm).
Proof.
  split; [discriminate|]. split; [reflexivity|]. split; [reflexivity|].
  vm_compute. discriminate.
Qed.

(** The scenario of the specification: one turn with the two exact strings,
    and one synthesis call, with the reply text. *)
Example scenario_anxious_before_exams :
  let w := Sample.world Sample.key_env (Ok []) (Ok Sample.breathe) None in
  let i := Sample.form None Sample.anxious Sample.English true false in
  let s' := (run_script w i (Some []) ∅).2 in
  log s' = [(Sample.anxious, Sample.breathe)] /\
  List.filter
    (fun e => match e with Invoke (synthesize_gtts_call _ _ _) => true | _ => false end)
    (trace s')
  = [Invoke (synthesize_gtts_call Sample.breathe (lit "en") true)].
Proof. split; vm_compute; reflexivity. Qed.

(** C2 (as amended): when [chat_response] is called, the Ask button was
    pressed with an audio file or a non-empty typed text; the text it gets
    is the trimmed transcript when a file was uploaded, the trimmed typed
    text otherwise, and it is empty exactly when that source text is made
    of whitespace only. *)
Theorem C2_chat_text_is_trimmed_source w i h f u :
  Invoke (chat_response_call u) ∈ trace (run_script w i h f).2 ->
  run i = true /\
  (audio_file i <> None \/ typed i <> []) /\
  match audio_file i with
  | None =>
      u = strip (typed i) /\ (u = [] <-> forallb isspace (typed i) = true)
  | Some a =>
      exists t,
        transcriptions_create w (whisper_request (content a)) = Ok t /\
        u = strip t /\ (u = [] <-> forallb isspace t = true)
  end.
Proof.
  intros H. apply run_justified in H. simpl in H.
  destruct H as [(Hk & Hc & Hr) [s1 Hs]].
  split; [exact Hr|].
  destruct Hs as [Ha Hty|a u Ha Hf Htr]; rewrite Ha.
  - split; [by right|]. split; [reflexivity|apply strip_nil].
  - split; [by left|]. unfold transcript in Htr.
    destruct (transcriptions_create w (whisper_request (content a))) as [t|e];
      [|discriminate].
    injection Htr as <-. exists t. split; [reflexivity|].
    split; [reflexivity|apply strip_nil].
Qed.

Lemma C2_chat_text_is_trimmed_source_witness :
  let i := Sample.form (Some Sample.clip) (lit "typed") Sample.English true false in
  run i = true /\
  (audio_file i <> None \/ typed i <> []) /\
  exists t,
    transcriptions_create Sample.w_ok (whisper_request (content Sample.clip)) = Ok t /\
    lit "I cannot sleep" = strip t /\
    (lit "I cannot sleep" = [] <-> forallb isspace t = true).
Proof.
  apply (C2_chat_text_is_trimmed_source Sample.w_ok
           (Sample.form (Some Sample.clip) (lit "typed") Sample.English true false)
           None ∅ (lit "I cannot sleep")).
  at_index 15%nat.
Defined.

(** C2 as stated fails: a typed text of blanks, and a clip without speech,
    both reach [chat_response] with the empty string. *)
Lemma C2_counterexample :
  Invoke (chat_response_call []) ∈
    trace (run_script Sample.w_ok
             (Sample.form None (lit "   ") Sample.English true false) None ∅).2 /\
  Invoke (chat_response_call []) ∈
    trace (run_script (Sample.world Sample.key_env (Ok (lit " ")) (Ok Sample.calm) None)
             (Sample.form (Some Sample.clip) [] Sample.English true false) None ∅).2.
Proof. split; [at_index 12%nat|at_index 15%nat]. Qed.

(** C3: with the Clear Chat button pressed the run leaves an empty log and
    asks for the rerun, whatever the log held; the rerun leaves it empty.
    (The button exists only in a run that passed the credential check.) *)
Theorem C3_clear_empties_log w i h f :
  not_key (environ w !! KEY) = false ->
  clear i = true ->
  (run_script w i h f).1 = Abrupt Rerun /\
  log (run_script w i h f).2 = [] /\
  log (interaction w i (start h f)).2 = [].
Proof.
  intros Hk Hc. unfold run_script, interaction.
  rewrite (app_clear w i _ Hk Hc). do 2 (split; [reflexivity|]).
  rewrite (app_open w (released i)) by done.
  by rewrite (body_idle w (released i) []).
Qed.

Lemma C3_clear_empties_log_witness :
  let i := Sample.form None [] Sample.Hindi false true in
  let h := Some [(lit "a", lit "b"); (lit "c", lit "d")] in
  (run_script Sample.w_ok i h ∅).1 = Abrupt Rerun /\
  log (run_script Sample.w_ok i h ∅).2 = [] /\
  log (interaction Sample.w_ok i (start h ∅)).2 = [].
Proof.
  apply (C3_clear_empties_log Sample.w_ok
           (Sample.form None [] Sample.Hindi false true)
           (Some [(lit "a", lit "b"); (lit "c", lit "d")]) ∅);
    vm_compute; reflexivity.
Defined.

(** C4: the Ask button pressed with no file and no typed text: the run
    shows the warning and stops; no adapter is called, no remote request is
    made, and the log and the files are as before. *)
Theorem C4_no_input_no_call w i h f :
  not_key (environ w !! KEY) = false ->
  run i = true -> clear i = false ->
  audio_file i = None -> typed i = [] ->
  (run_script w i h f).1 = Abrupt Stop /\
  StWarning no_input_message ∈ trace (run_script w i h f).2 /\
  Forall (fun e => is_adapter_call e = false) (trace (run_script w i h f).2) /\
  log (run_script w i h f).2 = default [] h /\
  files (run_script w i h f).2 = f.
Proof.
  intros Hk Hr Hc Ha Hty. unfold run_script.
  rewrite app_open, body_no_input by done. state_simpl.
  split; [reflexivity|]. split; [|split; [|done]].
  - apply elem_of_app. right. by apply list_elem_of_singleton.
  - apply Forall_app. split; [|by repeat constructor].
    apply Forall_forall. intros e He. by eapply widgets_plain.
Qed.

Lemma C4_no_input_no_call_witness :
  let i := Sample.form None [] Sample.English true false in
  let h := Some [(lit "a", lit "b")] in
  (run_script Sample.w_ok i h ∅).1 = Abrupt Stop /\
  StWarning no_input_message ∈ trace (run_script Sample.w_ok i h ∅).2 /\
  Forall (fun e => is_adapter_call e = false) (trace (run_script Sample.w_ok i h ∅).2) /\
  log (run_script Sample.w_ok i h ∅).2 = [(lit "a", lit "b")] /\
  files (run_script Sample.w_ok i h ∅).2 = ∅.
Proof.
  apply (C4_no_input_no_call Sample.w_ok
           (Sample.form None [] Sample.English true false)
           (Some [(lit "a", lit "b")]) ∅);
    vm_compute; reflexivity.
Defined.

(** C5 (as amended): once [transcribe_with_whisper] was called on the
    temporary copy of an upload, the copy is gone at the end of the run,
    whether the transcription returned or raised, provided [os.remove] did
    not refuse; a refusal is swallowed and the copy stays. *)
Theorem C5_temp_file_removed_unless_refused w i h f p :
  Invoke (transcribe_with_whisper_call p) ∈ trace (run_script w i h f).2 ->
  exists a,
    audio_file i = Some a /\ p = tmp_path_of w a /\
    files (run_script w i h f).2 !! p =
      match remove_fault w p with
      | None => None
      | Some _ => Some (content a)
      end.
Proof.
  intros H. apply run_justified in H. simpl in H.
  destruct H as [(Hk & Hc & Hr) (a & Ha & -> & Hf)].
  exists a. split; [exact Ha|]. split; [reflexivity|].
  unfold run_script. rewrite app_open by done.
  rewrite (body_audio w i a (log (start h f))) by done.
  assert (files (listened w a (opened w (start h f))) !! tmp_path_of w a =
          match remove_fault w (tmp_path_of w a) with
          | None => None
          | Some _ => Some (content a)
          end) as E.
  { state_simpl. destruct (remove_fault w (tmp_path_of w a));
      [apply lookup_insert_eq|exact Hf]. }
  destruct (transcript w a) as [u|e]; [|exact E].
  unfold replied. destruct (chat_reply w u); exact E.
Qed.

Lemma C5_temp_file_removed_unless_refused_witness :
  let w := Sample.world Sample.key_env (Raised (OpenAIError (lit "quota"))) (Ok Sample.calm) None in
  let i := Sample.form (Some Sample.clip) [] Sample.English true false in
  exists a,
    audio_file i = Some a /\ lit "/tmp/tmpk3x9.wav" = tmp_path_of w a /\
    files (run_script w i None ∅).2 !! lit "/tmp/tmpk3x9.wav" =
      match remove_fault w (lit "/tmp/tmpk3x9.wav") with
      | None => None
      | Some _ => Some (content a)
      end.
Proof.
  apply (C5_temp_file_removed_unless_refused
           (Sample.world Sample.key_env (Raised (OpenAIError (lit "quota"))) (Ok Sample.calm) None)
           (Sample.form (Some Sample.clip) [] Sample.English true false)
           None ∅ (lit "/tmp/tmpk3x9.wav")).
  at_index 12%nat.
Defined.

(** C5 as stated fails: when [os.remove] refuses, the copy is still there
    after the transcription, with and without a transcription error. *)
Lemma C5_counterexample :
  let denied := Some (OSError (lit "Permission denied")) in
  let i := Sample.form (Some Sample.clip) [] Sample.English true false in
  let w1 := Sample.world Sample.key_env (Ok (lit "hello")) (Ok Sample.calm) denied in
  let w2 := Sample.world Sample.key_env (Raised (OpenAIError (lit "quota")))
              (Ok Sample.calm) denied in
  (Invoke (transcribe_with_whisper_call (lit "/tmp/tmpk3x9.wav"))
     ∈ trace (run_script w1 i None ∅).2 /\
   files (run_script w1 i None ∅).2 !! lit "/tmp/tmpk3x9.wav" = Some []) /\
  (Invoke (transcribe_with_whisper_call (lit "/tmp/tmpk3x9.wav"))
     ∈ trace (run_script w2 i None ∅).2 /\
   files (run_script w2 i None ∅).2 !! lit "/tmp/tmpk3x9.wav" = Some []).
Proof.
  split; (split; [at_index 12%nat|vm_compute; reflexivity]).
Qed.

(** C6: every synthesis call of a run carries the language the selector
    asks for: [hi] when the choice starts with "Hindi"; otherwise [en] with
    the Indian-accent flag, and the engine gets the [co.in] domain. *)
Theorem C6_synthesis_follows_selector w i h f e :
  e ∈ trace (run_script w i h f).2 -> spoken_as_selected i e.
Proof.
  intros H. apply run_justified in H.
  destruct e as [| | | | | | | |ph|c| | |r|]; try exact I.
  - destruct c as [p|u|text lang acc]; try exact I.
    simpl in *. unfold voice_lang in H.
    destruct (startswith (lang_choice i) (lit "Hindi")); tauto.
  - simpl in *. unfold voice_lang in H.
    destruct (startswith (lang_choice i) (lit "Hindi")); [tauto|].
    destruct H as [H1 H2]. split; [exact H1|]. rewrite H2. reflexivity.
Qed.

Lemma C6_synthesis_follows_selector_witness :
  spoken_as_selected
    (Sample.form None (lit "hello") Sample.English true false)
    (GttsApi (gtts_request Sample.calm (lit "en") (lit "co.in"))).
Proof.
  apply (C6_synthesis_follows_selector Sample.w_ok
           (Sample.form None (lit "hello") Sample.English true false) None ∅).
  at_index 20%nat.
Defined.

Example hindi_selected_speaks_hindi :
  let i := Sample.form None (lit "hello") Sample.Hindi true false in
  Invoke (synthesize_gtts_call Sample.calm (lit "hi") true)
    ∈ trace (run_script Sample.w_ok i None ∅).2 /\
  GttsApi (gtts_request Sample.calm (lit "hi") (lit "com"))
    ∈ trace (run_script Sample.w_ok i None ∅).2.
Proof. split; [at_index 19%nat|at_index 20%nat]. Qed.

Lemma adapter_call_synthesis e : is_adapter_call e = false -> is_synthesis e = false.
Proof. destruct e as [| | | | | | | |ph|c| | | |]; try done. Qed.

Lemma widgets_silent k :
  Forall (fun e => is_synthesis e = false) (widgets_events k).
Proof.
  apply Forall_forall. intros e He.
  by eapply adapter_call_synthesis, widgets_plain.
Qed.

Lemma settled_silent w i s u s1 :
  trace s = [] -> settled w i (opened w s) u s1 ->
  Forall (fun e => is_synthesis e = false) (trace s1).
Proof.
  intros Ht [Ha Hty|a u' Ha Hf Htr]; state_simpl; rewrite Ht; state_simpl.
  - apply widgets_silent.
  - apply Forall_app. split; [apply widgets_silent|by repeat constructor].
Qed.

(** C7: when the transcription or the completion adapter raises in a run,
    the run ends with that error, the log is what it was before the run,
    and nothing is synthesized in it. *)
Theorem C7_adapter_error_aborts w i h f e :
  (exists a p,
     audio_file i = Some a /\
     Invoke (transcribe_with_whisper_call p) ∈ trace (run_script w i h f).2 /\
     transcript w a = Raised e) \/
  (exists u,
     Invoke (chat_response_call u) ∈ trace (run_script w i h f).2 /\
     chat_reply w u = Raised e) ->
  (run_script w i h f).1 = Abrupt (Exn e) /\
  log (run_script w i h f).2 = default [] h /\
  Forall (fun ev => is_synthesis ev = false) (trace (run_script w i h f).2).
Proof.
  intros [(a & p & Ha & Hin & Htr)|(u & Hin & Hrep)];
    apply run_justified in Hin; simpl in Hin.
  - destruct Hin as [(Hk & Hc & Hr) (a' & Ha' & -> & Hf)].
    assert (a' = a) as -> by congruence.
    unfold run_script. rewrite app_open by done.
    rewrite (body_audio w i a (log (start h f))) by done. rewrite Htr.
    split; [reflexivity|]. split; [reflexivity|]. state_simpl.
    apply Forall_app. split; [apply widgets_silent|by repeat constructor].
  - destruct Hin as [Hq [s1 Hs]].
    unfold run_script. rewrite (app_settled w i _ u s1 Hq Hs).
    unfold replied. rewrite Hrep.
    split; [reflexivity|]. split.
    + transitivity (log s1); [reflexivity|].
      by rewrite (settled_log _ _ _ _ _ Hs).
    + state_simpl. apply Forall_app. split; [|by repeat constructor].
      apply (settled_silent w i (start h f) u s1); [reflexivity|exact Hs].
Qed.

Lemma C7_adapter_error_aborts_witness :
  let w := Sample.world Sample.key_env (Ok (lit "hello"))
             (Raised (OpenAIError (lit "rate limit"))) None in
  let i := Sample.form (Some Sample.clip) [] Sample.English true false in
  let h := Some [(lit "a", lit "b")] in
  (run_script w i h ∅).1 = Abrupt (Exn (OpenAIError (lit "rate limit"))) /\
  log (run_script w i h ∅).2 = [(lit "a", lit "b")] /\
  Forall (fun ev => is_synthesis ev = false) (trace (run_script w i h ∅).2).
Proof.
  apply (C7_adapter_error_aborts
           (Sample.world Sample.key_env (Ok (lit "hello"))
              (Raised (OpenAIError (lit "rate limit"))) None)
           (Sample.form (Some Sample.clip) [] Sample.English true false)
           (Some [(lit "a", lit "b")]) ∅ (OpenAIError (lit "rate limit"))).
  right. exists (lit "hello"). split; [at_index 15%nat|reflexivity].
Defined.

Example transcription_error_aborts :
  let w := Sample.world Sample.key_env (Raised (OpenAIError (lit "bad audio")))
             (Ok Sample.calm) None in
  let i := Sample.form (Some Sample.clip) (lit "typed") Sample.Hindi true false in
  run_script w i (Some [(lit "a", lit "b")]) ∅ =
    (Abrupt (Exn (OpenAIError (lit "bad audio"))),
     {| chat_history := Some [(lit "a", lit "b")]; files := ∅;
        trace := widgets_events (lit "sk-test") ++ listen_events w Sample.clip |}).
Proof. vm_compute. reflexivity. Qed.

Lemma quiet_filter l : Forall quiet l -> List.filter is_env_read l = [].
Proof.
  induction 1 as [|e l He _ IH]; [reflexivity|].
  simpl. unfold quiet in He. by rewrite He.
Qed.

Lemma render_quiet w i l : Forall quiet (render_events w i l).
Proof.
  apply Forall_forall. intros e He. apply render_events_kind in He.
  by destruct e.
Qed.

Lemma settled_trace w i s u s1 :
  trace s = [] -> settled w i (opened w s) u s1 ->
  exists mid,
    trace s1 = widgets_events (default [] (environ w !! KEY)) ++ mid /\
    Forall quiet mid.
Proof.
  intros Ht [Ha Hty|a u' Ha Hf Htr]; state_simpl; rewrite Ht; state_simpl.
  - exists []. by rewrite app_nil_r.
  - exists (listen_events w a). split; [reflexivity|by repeat constructor].
Qed.

(** Past the credential check, a run draws the widgets and never reads
    the environment again. *)
Lemma run_trace_open w i h f :
  not_key (environ w !! KEY) = false ->
  exists rest,
    trace (run_script w i h f).2 =
      widgets_events (default [] (environ w !! KEY)) ++ rest /\
    Forall quiet rest.
Proof.
  intros Hk0. unfold run_script.
  destruct (app_shape w i (start h f))
    as [Hk|Hk Hc|Hk Hc Hr|Hk Hc Hr Ha Ht|a b Hk Hc Hr Ha Hf|a e' Hk Hc Hr Ha Hf Htr
       |u s1 e' Hk Hc Hr Hs Hrep|u s1 T Hk Hc Hr Hs Hrep];
    state_simpl.
  - congruence.
  - exists []. by rewrite app_nil_r.
  - eexists. split; [reflexivity|apply render_quiet].
  - eexists. split; [reflexivity|by repeat constructor].
  - eexists. split; [reflexivity|by repeat constructor].
  - eexists. split; [reflexivity|by repeat constructor].
  - destruct (settled_trace w i (start h f) u s1 eq_refl Hs) as (mid & -> & Hm).
    exists (mid ++ think_events u). rewrite app_assoc. split; [reflexivity|].
    apply Forall_app. split; [exact Hm|by repeat constructor].
  - destruct (settled_trace w i (start h f) u s1 eq_refl Hs) as (mid & -> & Hm).
    exists ((mid ++ think_events u) ++ render_events w i (default [] h ++ [(u, T)])).
    rewrite !app_assoc. split; [reflexivity|].
    rewrite !Forall_app. split; [split|]; [exact Hm|by repeat constructor|].
    apply render_quiet.
Qed.

(** C8 (as amended): when the variable is absent or empty the run reads
    it once, shows the error and stops: no client, no widget, no adapter
    call, session state and files untouched.  When it holds a non-empty
    value the run goes on to build the client and draw the widgets, and
    reads the variable exactly once. *)
Theorem C8_credential_check w i h f :
  (environ w !! KEY = None \/ environ w !! KEY = Some [] ->
   run_script w i h f =
     (Abrupt Stop,
      {| chat_history := h; files := f;
         trace := opening_events ++ [StError missing_key_message] |}) /\
   env_reads (trace (run_script w i h f).2) = 1%nat) /\
  (forall k, environ w !! KEY = Some k -> k <> [] ->
   (exists rest, trace (run_script w i h f).2 = widgets_events k ++ rest) /\
   env_reads (trace (run_script w i h f).2) = 1%nat).
Proof.
  split.
  - intros Hk. apply not_key_spec in Hk. unfold run_script.
    rewrite (app_without_key w i _ Hk). split; reflexivity.
  - intros k Hk Hne.
    assert (not_key (environ w !! KEY) = false) as Hk'.
    { rewrite Hk. by destruct k. }
    destruct (run_trace_open w i h f Hk') as (rest & E & Hq).
    rewrite Hk in E. change (default [] (Some k)) with k in E.
    split; [by exists rest|].
    rewrite E. unfold env_reads.
    rewrite List.filter_app, (quiet_filter rest Hq). reflexivity.
Qed.

Lemma C8_credential_check_witness :
  let i := Sample.form None (lit "hello") Sample.English true false in
  (run_script (Sample.world ∅ (Ok []) (Ok []) None) i None ∅ =
     (Abrupt Stop,
      {| chat_history := None; files := ∅;
         trace := opening_events ++ [StError missing_key_message] |}) /\
   env_reads (trace (run_script (Sample.world ∅ (Ok []) (Ok []) None) i None ∅).2) = 1%nat) /\
  ((exists rest, trace (run_script Sample.w_ok i None ∅).2
                 = widgets_events (lit "sk-test") ++ rest) /\
   env_reads (trace (run_script Sample.w_ok i None ∅).2) = 1%nat).
Proof.
  split.
  - apply (proj1 (C8_credential_check (Sample.world ∅ (Ok []) (Ok []) None)
                    (Sample.form None (lit "hello") Sample.English true false) None ∅)).
    left. vm_compute. reflexivity.
  - apply (proj2 (C8_credential_check Sample.w_ok
                    (Sample.form None (lit "hello") Sample.English true false) None ∅)
             (lit "sk-test")).
    + vm_compute. reflexivity.
    + discriminate.
Defined.

(** C8 as stated fails: a variable that is present but empty stops the run
    like an absent one. *)
Lemma C8_counterexample :
  let w := Sample.world {[ KEY := [] ]} (Ok []) (Ok []) None in
  let i := Sample.form None (lit "hello") Sample.English true false in
  is_Some (environ w !! KEY) /\
  run_script w i None ∅ =
    (Abrupt Stop,
     {| chat_history := None; files := ∅;
        trace := opening_events ++ [StError missing_key_message] |}).
Proof.
  split; [exists []|]; vm_compute; reflexivity.
Qed.

Lemma voice_outcome_not_rerun w i l : voice_outcome w i l <> Abrupt Rerun.
Proof.
  unfold voice_outcome. destruct (last l) as [[u b]|]; [|done].
  by destruct (gtts_write w (speech_request i b)).
Qed.

(** Only the Clear Chat button asks for a rerun. *)
Lemma app_rerun w i s :
  (app w i s).1 = Abrupt Rerun ->
  not_key (environ w !! KEY) = false /\ clear i = true.
Proof.
  destruct (app_shape w i s); simpl; intros E; try done;
    by apply voice_outcome_not_rerun in E.
Qed.

Lemma app_log_step w i s : log_step (log s) (log (app w i s).2).
Proof.
  unfold log_step.
  destruct (app_shape w i s)
    as [Hk|Hk Hc|Hk Hc Hr|Hk Hc Hr Ha Ht|a b Hk Hc Hr Ha Hf|a e' Hk Hc Hr Ha Hf Htr
       |u s1 e' Hk Hc Hr Hs Hrep|u s1 T Hk Hc Hr Hs Hrep].
  - by left.
  - by right; right.
  - by left.
  - by left.
  - by left.
  - by left.
  - left. transitivity (log s1); [reflexivity|].
    by rewrite (settled_log _ _ _ _ _ Hs).
  - right; left. by exists (u, T).
Qed.

Lemma interaction_log_step w i s : log_step (log s) (log (interaction w i s).2).
Proof.
  unfold interaction.
  destruct (app w i s) as [o s'] eqn:E.
  assert (o = Abrupt Rerun \/ o <> Abrupt Rerun) as [->|Hne].
  { destruct o as [|[| |]]; (by left) || (by right). }
  - destruct (app_rerun w i s) as [Hk Hc]; [by rewrite E|].
    rewrite (app_clear w i s Hk Hc) in E. injection E as <-.
    rewrite (app_open w (released i)) by done.
    rewrite (body_idle w (released i) []) by done.
    by right; right.
  - pose proof (app_log_step w i s) as H. rewrite E in H.
    destruct o as [|[| |]]; try exact H. done.
Qed.

(** C9: a run of the script, and an interaction (a run with the rerun it
    may ask for), leave the log as it was, or with exactly one turn added at
    its end, or empty; so the log is emptied or its turns stay in place. *)
Theorem C9_log_append_only w i s :
  log_step (log s) (log (app w i s).2) /\
  log_step (log s) (log (interaction w i s).2) /\
  (log (app w i s).2 = [] \/
   forall n t, log s !! n = Some t -> log (app w i s).2 !! n = Some t).
Proof.
  split; [apply app_log_step|]. split; [apply interaction_log_step|].
  destruct (app_log_step w i s) as [E|[[t E]|E]]; rewrite E.
  - by right.
  - right. intros n t' Hn. by apply lookup_app_l_Some.
  - by left.
Qed.

Example log_steps :
  let h := Some [(lit "a", lit "b")] in
  log (run_script Sample.w_ok (Sample.form None [] Sample.Hindi false false) h ∅).2
    = [(lit "a", lit "b")] /\
  log (run_script Sample.w_ok (Sample.form None (lit "hi") Sample.Hindi true false) h ∅).2
    = [(lit "a", lit "b"); (lit "hi", Sample.calm)] /\
  log (run_script Sample.w_ok (Sample.form None (lit "hi") Sample.Hindi true true) h ∅).2
    = [].
Proof. repeat split; vm_compute; reflexivity. Qed.

(** C10: with an audio file uploaded, the typed text changes nothing in the
    run; when the cycle completes, the logged user text and the text given
    to [chat_response] are the transcript. *)
Theorem C10_transcript_replaces_typed w i a s :
  audio_file i = Some a ->
  (forall t, app w (retyped i t) s = app w i s) /\
  (forall u T,
     asked w i -> files s !! tmp_path_of w a = None ->
     transcript w a = Ok u -> chat_reply w u = Ok T ->
     log (app w i s).2 = log s ++ [(u, T)] /\
     Invoke (chat_response_call u) ∈ trace (app w i s).2).
Proof.
  intros Ha. split.
  - intros t. destruct i as [af ty lc r c]. simpl in Ha. subst af.
    unfold retyped. simpl.
    unfold app, logic, ask. simpl. reflexivity.
  - intros u T Hq Hf Htr Hrep.
    rewrite (app_settled w i s u (listened w a (opened w s)) Hq)
      by (by apply settled_heard).
    unfold replied. rewrite Hrep. split; [reflexivity|].
    state_simpl. rewrite !elem_of_app. left. right.
    unfold think_events. set_solver.
Qed.

Lemma C10_transcript_replaces_typed_witness :
  let i := Sample.form (Some Sample.clip) (lit "typed words") Sample.English true false in
  (forall t, app Sample.w_ok (retyped i t) (start None ∅) = app Sample.w_ok i (start None ∅)) /\
  (forall u T,
     asked Sample.w_ok i -> files (start None ∅) !! tmp_path_of Sample.w_ok Sample.clip = None ->
     transcript Sample.w_ok Sample.clip = Ok u -> chat_reply Sample.w_ok u = Ok T ->
     log (app Sample.w_ok i (start None ∅)).2 = log (start None ∅) ++ [(u, T)] /\
     Invoke (chat_response_call u) ∈ trace (app Sample.w_ok i (start None ∅)).2).
Proof.
  apply (C10_transcript_replaces_typed Sample.w_ok
           (Sample.form (Some Sample.clip) (lit "typed words") Sample.English true false)
           Sample.clip (start None ∅)).
  reflexivity.
Defined.

Example transcript_is_logged :
  log (run_script Sample.w_ok
         (Sample.form (Some Sample.clip) (lit "typed words") Sample.English true false)
         None ∅).2
  = [(lit "I cannot sleep", Sample.calm)].
Proof. vm_compute. reflexivity. Qed.

End Claims.

(** ** More facts about strings *)

Section Trimming.

Lemma lstrip_idem (s : pystr) : lstrip (lstrip s) = lstrip s.
Proof.
  induction s as [|c s IH]; [reflexivity|].
  simpl. destruct (isspace c) eqn:E; [exact IH|]. simpl. by rewrite E.
Qed.

Lemma last_rev_head (s : pystr) : last (rev s) = head s.
Proof. destruct s as [|c s]; [reflexivity|]. simpl. apply last_snoc. Qed.

Lemma head_rev_last (s : pystr) : head (rev s) = last s.
Proof. rewrite <- (rev_involutive s) at 2. by rewrite last_rev_head. Qed.

Lemma lstrip_head_clean (s : pystr) c :
  head (lstrip s) = Some c -> isspace c = false.
Proof.
  destruct (lstrip s) as [|x t] eqn:E; [discriminate|].
  intros [= <-]. by eapply lstrip_head.
Qed.

(** Stripping once the left end is clean does not bring whitespace back. *)
Lemma lstrip_snoc (a : pystr) c :
  isspace c = false -> exists z, lstrip (a ++ [c]) = z ++ [c].
Proof.
  intros Hc. induction a as [|x a IH]; simpl.
  - rewrite Hc. by exists [].
  - destruct (isspace x); [exact IH|]. by exists (x :: a).
Qed.

Lemma rstrip_keeps_head (s : pystr) c t :
  s = c :: t -> isspace c = false -> head (rstrip s) = Some c.
Proof.
  intros -> Hc. unfold rstrip. simpl.
  destruct (lstrip_snoc (rev t) c Hc) as [z ->].
  rewrite rev_app_distr. reflexivity.
Qed.

End Trimming.

(** ** The calls of a run *)

Section Calls.

Lemma invokes_app a b : invokes (a ++ b) = invokes a ++ invokes b.
Proof. apply flat_map_app. Qed.

Lemma invokes_widgets k : invokes (widgets_events k) = [].
Proof. reflexivity. Qed.

Lemma invokes_opening m : invokes (opening_events ++ [StError m]) = [].
Proof. reflexivity. Qed.

Lemma invokes_listen w a :
  invokes (listen_events w a) = [transcribe_with_whisper_call (tmp_path_of w a)].
Proof. reflexivity. Qed.

Lemma invokes_think u : invokes (think_events u) = [chat_response_call u].
Proof. reflexivity. Qed.

Lemma invokes_bubbles l : invokes (bubble_events l) = [].
Proof. induction l as [|[u b] l IH]; [reflexivity|exact IH]. Qed.

Lemma invokes_render w i l : invokes (render_events w i l) = spoken i l.
Proof.
  unfold render_events, voice_events, voice_outcome, spoken.
  rewrite !invokes_app, invokes_bubbles.
  destruct (last l) as [[u b]|]; [|reflexivity].
  destruct (gtts_write w (speech_request i b)); reflexivity.
Qed.

Lemma elem_of_invokes c t : c ∈ invokes t <-> Invoke c ∈ t.
Proof.
  unfold invokes. rewrite !list_elem_of_In, in_flat_map. split.
  - intros [e [He Hc]]. destruct e; simpl in Hc; try done.
    destruct Hc as [->|[]]. exact He.
  - intros H. exists (Invoke c). split; [exact H|by left].
Qed.

End Calls.

Create Rewrite HintDb calls.
#[local] Hint Rewrite invokes_app invokes_widgets invokes_opening invokes_listen
  invokes_think invokes_render app_nil_r : calls.

(** Case analysis on how a run of the script ended, with the settled text
    split into typed and heard. *)
Ltac run_cases w i s :=
  destruct (app_shape w i s)
    as [Hk|Hk Hc|Hk Hc Hr|Hk Hc Hr Ha Hty|a b Hk Hc Hr Ha Hf
       |a e' Hk Hc Hr Ha Hf Htr
       |u s1 e' Hk Hc Hr [Ha Hty|a u0 Ha Hf Htr] Hrep
       |u s1 T Hk Hc Hr [Ha Hty|a u0 Ha Hf Htr] Hrep].

(** The calls of the trace in the goal, block by block. *)
Ltac calls_simpl :=
  cbn [trace files chat_history emits with_history with_files opened listened
       start fst snd log];
  autorewrite with calls; cbn [invokes flat_map app].

Section Pipeline.

(** In any run the adapters are called in the order transcription,
    completion, synthesis, each at most once. *)
Theorem run_calls_in_pipeline_order w i h f :
  exists tr ch sy,
    invokes (trace (run_script w i h f).2) = tr ++ ch ++ sy /\
    at_most_one is_transcription tr /\
    at_most_one is_completion ch /\
    at_most_one is_speech sy.
Proof.
  assert (forall l, at_most_one is_speech (spoken i l)) as Hsp.
  { intros l. unfold spoken. destruct (last l) as [[u b]|]; [right|by left].
    by eexists. }
  unfold run_script. run_cases w i (start h f); calls_simpl.
  - exists [], [], []. repeat split; by left.
  - exists [], [], []. repeat split; by left.
  - exists [], [], (spoken i (default [] h)). repeat split; (by left) || apply Hsp.
  - exists [], [], []. repeat split; by left.
  - exists [], [], []. repeat split; by left.
  - eexists [_], [], []. repeat split; (by left) || (right; by eexists).
  - eexists [], [_], []. repeat split; (by left) || (right; by eexists).
  - eexists [_], [_], []. repeat split; (by left) || (right; by eexists).
  - eexists [], [_], (spoken i _). split; [reflexivity|].
    repeat split; (by left) || (right; by eexists) || apply Hsp.
  - eexists [_], [_], (spoken i _). split; [reflexivity|].
    repeat split; (by left) || (right; by eexists) || apply Hsp.
Qed.

(** Whenever speech is synthesized in a run, its text is the reply of the
    last turn of the log as the run leaves it. *)
Theorem speech_is_for_last_reply w i h f text lang acc :
  Invoke (synthesize_gtts_call text lang acc) ∈ trace (run_script w i h f).2 ->
  exists u, last (log (run_script w i h f).2) = Some (u, text).
Proof.
  intros H. apply elem_of_invokes in H. revert H.
  unfold run_script. run_cases w i (start h f); calls_simpl; intros H.
  all: repeat (apply elem_of_cons in H as [H|H]; [discriminate H|]).
  all: try (by apply elem_of_nil in H).
  all: unfold spoken in H.
  all: match type of H with context [last ?l] =>
         destruct (last l) as [[x b]|] eqn:E; [|by apply elem_of_nil in H] end.
  all: apply list_elem_of_singleton in H; injection H as -> _ _; by exists x.
Qed.

Lemma speech_is_for_last_reply_witness :
  exists u,
    last (log (run_script Sample.w_ok
                 (Sample.form None (lit "hello") Sample.Hindi true false)
                 None ∅).2)
    = Some (u, Sample.calm).
Proof.
  apply (speech_is_for_last_reply Sample.w_ok
           (Sample.form None (lit "hello") Sample.Hindi true false) None ∅
           Sample.calm (lit "hi") true).
  at_index 19%nat.
Defined.

(** A run in which no button was pressed leaves log and files alone and
    calls no adapter but synthesis, for the last reply of the log; with an
    empty log it calls nothing. *)
Theorem idle_run_speaks_last_reply w i h f :
  not_key (environ w !! KEY) = false ->
  clear i = false -> run i = false ->
  log (run_script w i h f).2 = default [] h /\
  files (run_script w i h f).2 = f /\
  invokes (trace (run_script w i h f).2) = spoken i (default [] h).
Proof.
  intros Hk Hc Hr. unfold run_script.
  rewrite app_open by done.
  rewrite (body_idle w i (log (start h f))) by done.
  calls_simpl. done.
Qed.

Lemma idle_run_speaks_last_reply_witness :
  let i := Sample.form None [] Sample.Hindi false false in
  let h := Some [(lit "a", lit "b"); (lit "c", lit "d")] in
  log (run_script Sample.w_ok i h ∅).2 = [(lit "a", lit "b"); (lit "c", lit "d")] /\
  files (run_script Sample.w_ok i h ∅).2 = ∅ /\
  invokes (trace (run_script Sample.w_ok i h ∅).2)
    = [synthesize_gtts_call (lit "d") (lit "hi") true].
Proof.
  apply (idle_run_speaks_last_reply Sample.w_ok
           (Sample.form None [] Sample.Hindi false false)
           (Some [(lit "a", lit "b"); (lit "c", lit "d")]) ∅);
    vm_compute; reflexivity.
Defined.

(** With the Clear Chat button pressed, the run and the rerun it asks for
    call no adapter, whatever the other widgets hold (the Ask button
    included), and the interaction ends normally with an empty log. *)
Theorem clear_calls_no_adapter w i h f :
  not_key (environ w !! KEY) = false ->
  clear i = true ->
  (interaction w i (start h f)).1 = Normal tt /\
  log (interaction w i (start h f)).2 = [] /\
  invokes (trace (interaction w i (start h f)).2) = [].
Proof.
  intros Hk Hc. unfold interaction.
  rewrite (app_clear w i _ Hk Hc).
  rewrite (app_open w (released i)) by done.
  rewrite (body_idle w (released i) []) by done.
  calls_simpl. done.
Qed.

Lemma clear_calls_no_adapter_witness :
  let i := Sample.form (Some Sample.clip) (lit "hello") Sample.English true true in
  let h := Some [(lit "a", lit "b")] in
  (interaction Sample.w_ok i (start h ∅)).1 = Normal tt /\
  log (interaction Sample.w_ok i (start h ∅)).2 = [] /\
  invokes (trace (interaction Sample.w_ok i (start h ∅)).2) = [].
Proof.
  apply (clear_calls_no_adapter Sample.w_ok
           (Sample.form (Some Sample.clip) (lit "hello") Sample.English true true)
           (Some [(lit "a", lit "b")]) ∅);
    vm_compute; reflexivity.
Defined.

(** When [chat_response] was called with [u] and returned [T], the run
    appends exactly the turn [(u, T)], whether [u] was typed or heard. *)
Theorem answered_cycle_logs_sent_text w i h f u T :
  Invoke (chat_response_call u) ∈ trace (run_script w i h f).2 ->
  chat_reply w u = Ok T ->
  log (run_script w i h f).2 = default [] h ++ [(u, T)].
Proof.
  intros H Hrep. apply run_justified in H. simpl in H.
  destruct H as [Hq [s1 Hs]].
  unfold run_script. rewrite (app_settled w i _ u s1 Hq Hs).
  unfold replied. rewrite Hrep. reflexivity.
Qed.

Lemma answered_cycle_logs_sent_text_witness :
  log (run_script Sample.w_ok
         (Sample.form (Some Sample.clip) [] Sample.English true false)
         (Some [(lit "a", lit "b")]) ∅).2
  = [(lit "a", lit "b")] ++ [(lit "I cannot sleep", Sample.calm)].
Proof.
  apply (answered_cycle_logs_sent_text Sample.w_ok
           (Sample.form (Some Sample.clip) [] Sample.English true false)
           (Some [(lit "a", lit "b")]) ∅ (lit "I cannot sleep") Sample.calm).
  - at_index 15%nat.
  - reflexivity.
Defined.

(** A synthesis error comes after the append: the run ends with the
    error, but the new turn stays in the log and was drawn in the thread. *)
Theorem speech_error_keeps_turn w i h f u T e :
  Invoke (chat_response_call u) ∈ trace (run_script w i h f).2 ->
  chat_reply w u = Ok T ->
  gtts_write w (speech_request i T) = Raised e ->
  (run_script w i h f).1 = Abrupt (Exn e) /\
  log (run_script w i h f).2 = default [] h ++ [(u, T)] /\
  Markdown (BotBubble T) ∈ trace (run_script w i h f).2.
Proof.
  intros H Hrep Hg. apply run_justified in H. simpl in H.
  destruct H as [Hq [s1 Hs]].
  unfold run_script. rewrite (app_settled w i _ u s1 Hq Hs).
  unfold replied. rewrite Hrep. unfold voice_outcome.
  rewrite last_snoc, Hg. split; [reflexivity|]. split; [reflexivity|].
  cbn [trace emits with_history snd]. apply elem_of_app. right.
  unfold render_events. apply elem_of_app. right. apply elem_of_app. left.
  unfold bubble_events. rewrite flat_map_app. apply elem_of_app. right.
  cbn [flat_map fst snd app]. apply elem_of_cons. right.
  by apply elem_of_cons; left.
Qed.

Lemma speech_error_keeps_turn_witness :
  let w := {| environ := Sample.key_env;
              temp_name := fun suffix => lit "/tmp/tmpk3x9" ++ suffix;
              transcriptions_create := fun _ => Ok [];
              completions_create := fun _ => Ok Sample.calm;
              gtts_write := fun _ => Raised (gTTSError (lit "429"));
              remove_fault := fun _ => None |} in
  let i := Sample.form None (lit "hello") Sample.English true false in
  (run_script w i None ∅).1 = Abrupt (Exn (gTTSError (lit "429"))) /\
  log (run_script w i None ∅).2 = [] ++ [(lit "hello", Sample.calm)] /\
  Markdown (BotBubble Sample.calm) ∈ trace (run_script w i None ∅).2.
Proof.
  apply (speech_error_keeps_turn
           {| environ := Sample.key_env;
              temp_name := fun suffix => lit "/tmp/tmpk3x9" ++ suffix;
              transcriptions_create := fun _ => Ok [];
              completions_create := fun _ => Ok Sample.calm;
              gtts_write := fun _ => Raised (gTTSError (lit "429"));
              remove_fault := fun _ => None |}
           (Sample.form None (lit "hello") Sample.English true false)
           None ∅ (lit "hello") Sample.calm (gTTSError (lit "429"))).
  - at_index 12%nat.
  - reflexivity.
  - reflexivity.
Defined.

End Pipeline.

(** ** Requests, files and control *)

Section Effects.



(** Every completion request of a run carries the fixed persona prompt,
    model, temperature and reply cap, and as user message the trimmed
    transcript (file uploaded) or the trimmed typed text (no file). *)
Theorem completion_request_is_fixed w i h f r :
  CompletionApi r ∈ trace (run_script w i h f).2 ->
  cr_system r = SYSTEM_PROMPT /\ cr_model r = lit "gpt-4o-mini" /\
  cr_temperature r = 0.7%Q /\ cr_max_tokens r = 250%N /\
  match audio_file i with
  | Some a => transcript w a = Ok (cr_user r)
  | None => cr_user r = strip (typed i)
  end.
Proof.
  intros H. apply run_justified in H. simpl in H.
  destruct H as [_ (u & s1 & -> & Hs)].
  do 4 (split; [reflexivity|]).
  destruct Hs as [Ha Hty|a u Ha Hf Htr]; by rewrite Ha.
Qed.

Lemma completion_request_is_fixed_witness :
  let r := chat_request (lit "hello") in
  cr_system r = SYSTEM_PROMPT /\ cr_model r = lit "gpt-4o-mini" /\
  cr_temperature r = 0.7%Q /\ cr_max_tokens r = 250%N /\
  cr_user r = strip (lit " hello ").
Proof.
  apply (completion_request_is_fixed Sample.w_ok
           (Sample.form None (lit " hello ") Sample.English true false) None ∅
           (chat_request (lit "hello"))).
  at_index 13%nat.
Defined.



(** The run stops at [st.stop()] exactly when the credential is missing
    or empty, or the Ask button was pressed with nothing to ask; it asks for
    a rerun exactly when the Clear Chat button was pressed. *)
Theorem run_stop_and_rerun w i h f :
  ((run_script w i h f).1 = Abrupt Stop <->
   not_key (environ w !! KEY) = true \/
   (clear i = false /\ run i = true /\ audio_file i = None /\ typed i = [])) /\
  ((run_script w i h f).1 = Abrupt Rerun <->
   not_key (environ w !! KEY) = false /\ clear i = true).
Proof.
  assert (forall l, voice_outcome w i l <> Abrupt Stop) as Hv.
  { intros l. unfold voice_outcome. destruct (last l) as [[u b]|]; [|done].
    by destruct (gtts_write w (speech_request i b)). }
  pose proof (voice_outcome_not_rerun w i) as Hv'.
  unfold run_script. run_cases w i (start h f); cbn [fst].
  all: split; (split; [intros E; try discriminate E;
                        try (by apply Hv in E); try (by apply Hv' in E); tauto|]).
  all: try (intros [?|(? & ? & ? & ?)]; try reflexivity; congruence).
  all: try (intros [? ?]; try reflexivity; congruence).
Qed.

End Effects.

(** ** The log over a session *)

Section Sessions.

Lemma strip_trimmed (s : pystr) : trimmed (strip s).
Proof.
  unfold trimmed, strip. split; intros c Hc.
  - destruct (lstrip s) as [|x t] eqn:E; [discriminate|].
    pose proof (lstrip_head s x t E) as Hx.
    rewrite (rstrip_keeps_head (x :: t) x t eq_refl Hx) in Hc.
    by injection Hc as <-.
  - unfold rstrip in Hc. rewrite last_rev_head in Hc.
    by eapply lstrip_head_clean.
Qed.

Lemma chat_reply_trimmed w u T : chat_reply w u = Ok T -> trimmed T.
Proof.
  unfold chat_reply. destruct (completions_create w (chat_request u)); [|done].
  intros [= <-]. apply strip_trimmed.
Qed.

Lemma settled_trimmed w i s u s1 : settled w i s u s1 -> trimmed u.
Proof.
  intros [Ha Hty|a u' Ha Hf Htr]; [apply strip_trimmed|].
  unfold transcript in Htr.
  destruct (transcriptions_create w (whisper_request (content a))); [|done].
  injection Htr as <-. apply strip_trimmed.
Qed.

Lemma snoc_not_self (l : list turn) t : l <> l ++ [t].
Proof.
  intros E. apply (f_equal length) in E. rewrite length_app in E.
  simpl in E. lia.
Qed.

(** What a run does to the log, with the texts of an added turn. *)
Lemma app_log_cases w i s :
  log (app w i s).2 = log s \/
  log (app w i s).2 = [] \/
  exists t, log (app w i s).2 = log s ++ [t] /\ trimmed_turn t.
Proof.
  destruct (app_shape w i s)
    as [Hk|Hk Hc|Hk Hc Hr|Hk Hc Hr Ha Ht|a b Hk Hc Hr Ha Hf|a e' Hk Hc Hr Ha Hf Htr
       |u s1 e' Hk Hc Hr Hs Hrep|u s1 T Hk Hc Hr Hs Hrep].
  all: try (by left).
  - by right; left.
  - left. transitivity (log s1); [reflexivity|].
    by rewrite (settled_log _ _ _ _ _ Hs).
  - right; right. exists (u, T). split; [reflexivity|]. split.
    + by eapply settled_trimmed.
    + by eapply chat_reply_trimmed.
Qed.

Lemma interaction_log_cases w i s :
  log (interaction w i s).2 = log (app w i s).2 \/
  log (interaction w i s).2 = [].
Proof.
  unfold interaction. destruct (app w i s) as [o s'] eqn:E.
  assert (o = Abrupt Rerun \/ o <> Abrupt Rerun) as [->|Hne].
  { destruct o as [|[| |]]; (by left) || (by right). }
  - destruct (app_rerun w i s) as [Hk Hc]; [by rewrite E|].
    rewrite (app_clear w i s Hk Hc) in E. injection E as <-.
    rewrite (app_open w (released i)) by done.
    rewrite (body_idle w (released i) []) by done. by right.
  - left. by destruct o as [|[| |]].
Qed.

(** A turn the script appends has no whitespace at either end of its
    user text or of its reply. *)
Theorem appended_turn_is_trimmed w i s t :
  log (app w i s).2 = log s ++ [t] -> trimmed_turn t.
Proof.
  intros E. destruct (app_log_cases w i s) as [E'|[E'|(t' & E' & Ht)]];
    rewrite E' in E.
  - by apply snoc_not_self in E.
  - by apply app_cons_not_nil in E.
  - apply app_inv_head in E. by injection E as <-.
Qed.

Lemma appended_turn_is_trimmed_witness :
  trimmed_turn (lit "hi", Sample.calm).
Proof.
  apply (appended_turn_is_trimmed Sample.w_ok
           (Sample.form None (lit "  hi ") Sample.English true false)
           (start None ∅)).
  vm_compute. reflexivity.
Defined.

(** Over a whole session the log grows by at most one turn per
    interaction. *)
Theorem session_log_grows_slowly steps s :
  (length (log (session steps s)) <= length (log s) + length steps)%nat.
Proof.
  revert s. induction steps as [|[w i] steps IH]; intros s; simpl; [lia|].
  specialize (IH (interaction w i s).2).
  destruct (interaction_log_step w i s) as [E|[[t E]|E]]; rewrite E in IH;
    rewrite ?length_app in IH; simpl in IH; lia.
Qed.

(** Trimmed turns stay the only turns: if every turn of the log has
    trimmed texts, so has every turn of the log after any session; in
    particular after any session that starts with no log. *)
Theorem session_keeps_turns_trimmed steps s :
  Forall trimmed_turn (log s) ->
  Forall trimmed_turn (log (session steps s)).
Proof.
  revert s. induction steps as [|[w i] steps IH]; intros s Hs; [exact Hs|].
  simpl. apply IH.
  destruct (interaction_log_cases w i s) as [E|E]; rewrite E; [|constructor].
  destruct (app_log_cases w i s) as [E'|[E'|(t & E' & Ht)]]; rewrite E'.
  - exact Hs.
  - constructor.
  - apply Forall_app. split; [exact Hs|by constructor].
Qed.

Lemma session_keeps_turns_trimmed_witness :
  Forall trimmed_turn
    (log (session
            [(Sample.w_ok, Sample.form None (lit " one ") Sample.English true false);
             (Sample.w_ok, Sample.form (Some Sample.clip) [] Sample.Hindi true false)]
            (start None ∅))).
Proof.
  apply (session_keeps_turns_trimmed
           [(Sample.w_ok, Sample.form None (lit " one ") Sample.English true false);
            (Sample.w_ok, Sample.form (Some Sample.clip) [] Sample.Hindi true false)]
           (start None ∅)).
  constructor.
Defined.

Example session_of_three :
  log (session
         [(Sample.w_ok, Sample.form None (lit " one ") Sample.English true false);
          (Sample.w_ok, Sample.form (Some Sample.clip) [] Sample.Hindi true false);
          (Sample.w_ok, Sample.form None [] Sample.Hindi true false)]
         (start None ∅))
  = [(lit "one", Sample.calm); (lit "I cannot sleep", Sample.calm)].
Proof. vm_compute. reflexivity. Qed.

End Sessions.

(** ** The chat thread *)

Section Thread.

Lemma bubbles_of_bubbles l : List.filter is_bubble (bubble_events l) = bubble_events l.
Proof.
  induction l as [|[u b] l IH]; [reflexivity|].
  simpl. by rewrite IH.
Qed.

Lemma bubbles_of_render w i l :
  List.filter is_bubble (render_events w i l) = bubble_events l.
Proof.
  unfold render_events, voice_events, voice_outcome.
  rewrite !List.filter_app, bubbles_of_bubbles.
  destruct (last l) as [[u b]|]; simpl; [|by rewrite app_nil_r].
  destruct (gtts_write w (speech_request i b)); simpl; by rewrite app_nil_r.
Qed.

(** A run that ends normally has drawn one user bubble and one reply
    bubble for every turn of the log it leaves, oldest first, the turn just
    appended included, and no other bubble. *)
Theorem thread_shows_log_in_order w i h f :
  (run_script w i h f).1 = Normal tt ->
  List.filter is_bubble (trace (run_script w i h f).2)
    = bubble_events (log (run_script w i h f).2).
Proof.
  unfold run_script. run_cases w i (start h f); cbn [fst]; intros E;
    try discriminate E.
  all: cbn [trace files chat_history emits with_history with_files opened
            listened start fst snd log app].
  all: rewrite !List.filter_app, bubbles_of_render; reflexivity.
Qed.

Lemma thread_shows_log_in_order_witness :
  let i := Sample.form None (lit "hello") Sample.English true false in
  let h := Some [(lit "a", lit "b")] in
  List.filter is_bubble (trace (run_script Sample.w_ok i h ∅).2)
    = bubble_events (log (run_script Sample.w_ok i h ∅).2).
Proof.
  apply (thread_shows_log_in_order Sample.w_ok
           (Sample.form None (lit "hello") Sample.English true false)
           (Some [(lit "a", lit "b")]) ∅).
  vm_compute. reflexivity.
Defined.

End Thread.

(** ** Where errors come from *)

Section Errors.



End Errors.
